(** * CrowSight demo project: payment handler and order model

    A shallow embedding of the two pieces of [examples/my_project] that carry
    behaviour:

    - [services/payments/processor.go]: the HTTP handler [Processor], which
      decodes a JSON body into a [PaymentRequest], prints one line and
      answers with a fixed [PaymentResponse];
    - [models/Order.java]: the class [Order] and its method
      [calculateTotalWithTax].

    The handler is written once, as a program over the calls it makes on its
    [http.ResponseWriter] and on standard output; the program is then run
    sequentially (one request after the other) and as a pool of handlers
    whose steps interleave, which is how [net/http] runs them.

    The last part models the idempotency ledger of the design document,
    which the source files do not contain. *)

From Stdlib Require Import ZArith Lia Ascii String List Bool.
From Stdlib Require Import Floats.PrimFloat Floats.SpecFloat Floats.FloatOps Floats.FloatAxioms.
From stdpp Require Import base option list gmap strings.

Local Open Scope string_scope.
Local Open Scope list_scope.
Local Open Scope Z_scope.

#[local] Set Warnings "-register-all".

(** ** Text helpers *)

(** The line feed and the double quote, which a string literal cannot hold. *)
Definition nl : string := String "010"%char EmptyString.
Definition dquote : ascii := Ascii.ascii_of_nat 34.

(** [qq s] is [s] with every apostrophe turned into a double quote, so that
    JSON test bodies can be written as ['{'order_id':'ord-1'}']. *)
Fixpoint qq (s : string) : string :=
  match s with
  | EmptyString => EmptyString
  | String c s' => String (if (c =? "'")%char then dquote else c) (qq s')
  end.

Fixpoint srev_onto (s acc : string) : string :=
  match s with
  | EmptyString => acc
  | String c s' => srev_onto s' (String c acc)
  end.

Definition srev (s : string) : string := srev_onto s EmptyString.

Definition code (c : ascii) : N := N_of_ascii c.

Definition between (lo hi : N) (c : ascii) : bool :=
  ((lo <=? code c) && (code c <=? hi))%N.

Definition is_space (c : ascii) : bool :=
  (c =? " ")%char || (c =? "009")%char || (c =? "013")%char || (c =? "010")%char.

Definition is_digit (c : ascii) : bool := between 48 57 c.

Definition is_digit19 (c : ascii) : bool := between 49 57 c.

Definition hex_value (c : ascii) : option N :=
  if between 48 57 c then Some (code c - 48)%N
  else if between 97 102 c then Some (code c - 87)%N
  else if between 65 70 c then Some (code c - 55)%N
  else None.

Definition is_hex (c : ascii) : bool :=
  match hex_value c with Some _ => true | None => false end.

Definition lower (c : ascii) : ascii :=
  if between 65 90 c then ascii_of_N (code c + 32) else c.

Fixpoint lower_string (s : string) : string :=
  match s with
  | EmptyString => EmptyString
  | String c s' => String (lower c) (lower_string s')
  end.

Definition peek (n : nat) (s : string) : option ascii := String.get n s.

(** ** UTF-8, as [unicode/utf8] encodes and decodes runes *)

Module utf8.

Definition RuneError : N := 65533.

Definition byte (n : N) : ascii := ascii_of_N n.

Definition EncodeRune (r : N) : string :=
  let r := if ((55296 <=? r) && (r <=? 57343) || (1114111 <? r))%N then RuneError else r in
  if (r <? 128)%N then String (byte r) EmptyString
  else if (r <? 2048)%N then
    String (byte (192 + r / 64)) (String (byte (128 + r mod 64)) EmptyString)
  else if (r <? 65536)%N then
    String (byte (224 + r / 4096))
      (String (byte (128 + (r / 64) mod 64)) (String (byte (128 + r mod 64)) EmptyString))
  else
    String (byte (240 + r / 262144))
      (String (byte (128 + (r / 4096) mod 64))
         (String (byte (128 + (r / 64) mod 64)) (String (byte (128 + r mod 64)) EmptyString))).

(** The number of bytes of the well-formed UTF-8 sequence that starts with
    [c0], given the (up to three) bytes after it; [0] when there is none,
    in which case [DecodeRune] yields [RuneError] and a width of one. *)
Definition sequence_length (c0 : ascii) (c1 c2 c3 : option ascii) : nat :=
  let cont (lo hi : N) (c : option ascii) :=
    match c with Some c => between lo hi c | None => false end in
  let n := code c0 in
  if (n <? 128)%N then 1%nat
  else if between 194 223 c0 then (if cont 128%N 191%N c1 then 2 else 0)%nat
  else if between 224 239 c0 then
    let lo := if (n =? 224)%N then 160%N else 128%N in
    let hi := if (n =? 237)%N then 159%N else 191%N in
    (if cont lo hi c1 && cont 128%N 191%N c2 then 3 else 0)%nat
  else if between 240 244 c0 then
    let lo := if (n =? 240)%N then 144%N else 128%N in
    let hi := if (n =? 244)%N then 143%N else 191%N in
    (if cont lo hi c1 && cont 128%N 191%N c2 && cont 128%N 191%N c3 then 4 else 0)%nat
  else 0%nat.

(** Every byte that starts no well-formed sequence becomes U+FFFD, as the
    decoder does when it copies a string literal. [skip] counts the bytes
    still to copy of a sequence already accepted. *)
Fixpoint ToValid (skip : nat) (s : string) : string :=
  match s with
  | EmptyString => EmptyString
  | String c0 r0 =>
      match skip with
      | S k => String c0 (ToValid k r0)
      | O =>
          match sequence_length c0 (peek 0 r0) (peek 1 r0) (peek 2 r0) with
          | O => EncodeRune RuneError +:+ ToValid 0 r0
          | S n => String c0 (ToValid n r0)
          end
      end
  end.

End utf8.

(** ** JSON, as [encoding/json] scans, decodes and encodes it

    The scanner follows [scanner.go]: one step per byte, a stack of the
    open arrays and objects, and the lexical states of strings, numbers and
    literals. A [Decoder] reads the first value of its stream and leaves
    what follows it unread. *)

Module json.

Inductive value : Type :=
| Null
| Bool (b : bool)
| Number (lit : string)
| Str (s : string)
| Array (vs : list value)
| Object (kvs : list (string * value)).

Inductive error : Type :=
| EOF
| ErrUnexpectedEOF
| SyntaxError
| UnmarshalTypeError (kind field : string).

Inductive numstate : Type :=
| stateNeg | state0 | state1 | stateDot | stateDot0 | stateE | stateESign | stateE0.

Inductive frame : Type :=
| FArray (vs : list value)
| FObject (kvs : list (string * value)) (key : option string).

Inductive lex : Type :=
| BeginValue
| BeginValueOrEmpty
| BeginStringOrEmpty
| BeginString
| ObjectKeyEnd
| EndValue
| InString (iskey : bool) (raw : string)
| InStringEsc (iskey : bool) (raw : string)
| InStringEscU (iskey : bool) (raw : string) (n : nat)
| InNumber (st : numstate) (raw : string)
| InLiteral (rest : string) (v : value).

Inductive state : Type :=
| Running (stack : list frame) (l : lex)
| Done (v : value)
| Failed (e : error).

Definition maxNestingDepth : N := 10000.

(** *** Unquoting a scanned string literal *)

Definition hex4 (s : string) : option N :=
  match peek 0 s, peek 1 s, peek 2 s, peek 3 s with
  | Some a, Some b, Some c, Some d =>
      match hex_value a, hex_value b, hex_value c, hex_value d with
      | Some a, Some b, Some c, Some d => Some (((a * 16 + b) * 16 + c) * 16 + d)%N
      | _, _, _, _ => None
      end
  | _, _, _, _ => None
  end.

(** [getu4 s]: the code unit of a leading [\uXXXX], if [s] starts with one. *)
Definition getu4 (s : string) : option N :=
  match s with
  | String b (String u s') =>
      if (b =? "\")%char && (u =? "u")%char then hex4 s' else None
  | _ => None
  end.

Definition escaped (e : ascii) : ascii :=
  if (e =? "b")%char then "008"%char
  else if (e =? "f")%char then "012"%char
  else if (e =? "n")%char then "010"%char
  else if (e =? "r")%char then "013"%char
  else if (e =? "t")%char then "009"%char
  else e.

Definition is_surrogate (u : N) : bool := ((55296 <=? u) && (u <? 57344))%N.

(** [utf16.DecodeRune]: a high then a low surrogate make one rune. *)
Definition DecodeRune (r1 r2 : N) : option N :=
  if ((55296 <=? r1) && (r1 <? 56320) && (56320 <=? r2) && (r2 <? 57344))%N
  then Some ((r1 - 55296) * 1024 + (r2 - 56320) + 65536)%N
  else None.

Fixpoint unescape (skip : nat) (s : string) : string :=
  match s with
  | EmptyString => EmptyString
  | String c r =>
      match skip with
      | S k => unescape k r
      | O =>
          if (c =? "\")%char then
            match r with
            | EmptyString => EmptyString
            | String e r' =>
                if (e =? "u")%char then
                  match hex4 r' with
                  | None => EmptyString
                  | Some u =>
                      if is_surrogate u then
                        match getu4 (String.substring 4 (String.length r') r') with
                        | Some u2 =>
                            match DecodeRune u u2 with
                            | Some rr => utf8.EncodeRune rr +:+ unescape 11 r
                            | None => utf8.EncodeRune utf8.RuneError +:+ unescape 5 r
                            end
                        | None => utf8.EncodeRune utf8.RuneError +:+ unescape 5 r
                        end
                      else utf8.EncodeRune u +:+ unescape 5 r
                  end
                else String (escaped e) (unescape 1 r)
            end
          else String c (unescape 0 r)
      end
  end.

Definition unquote (raw : string) : string := unescape 0 (utf8.ToValid 0 raw).

(** *** The scanner *)

Definition push (stack : list frame) (f : frame) (l : lex) : state :=
  if (maxNestingDepth <? N.of_nat (length (f :: stack)))%N then Failed SyntaxError
  else Running (f :: stack) l.

(** A value has been read: at the top level the scan is over, inside a
    container the value joins it. *)
Definition end_of_value (stack : list frame) (v : value) : state :=
  match stack with
  | [] => Done v
  | FArray vs :: stk => Running (FArray (v :: vs) :: stk) EndValue
  | FObject kvs (Some k) :: stk => Running (FObject ((k, v) :: kvs) None :: stk) EndValue
  | FObject kvs None :: stk => Failed SyntaxError
  end.

Definition stateBeginValue (stack : list frame) (c : ascii) : state :=
  if (c =? "{")%char then push stack (FObject [] None) BeginStringOrEmpty
  else if (c =? "[")%char then push stack (FArray []) BeginValueOrEmpty
  else if (c =? dquote)%char then Running stack (InString false EmptyString)
  else if (c =? "-")%char then Running stack (InNumber stateNeg (String c EmptyString))
  else if (c =? "0")%char then Running stack (InNumber state0 (String c EmptyString))
  else if is_digit19 c then Running stack (InNumber state1 (String c EmptyString))
  else if (c =? "t")%char then Running stack (InLiteral "rue" (Bool true))
  else if (c =? "f")%char then Running stack (InLiteral "alse" (Bool false))
  else if (c =? "n")%char then Running stack (InLiteral "ull" Null)
  else Failed SyntaxError.

Definition stateBeginString (stack : list frame) (c : ascii) : state :=
  if (c =? dquote)%char then Running stack (InString true EmptyString)
  else Failed SyntaxError.

Definition stateEndValue (stack : list frame) (c : ascii) : state :=
  match stack with
  | FArray vs :: stk =>
      if (c =? ",")%char then Running stack BeginValue
      else if (c =? "]")%char then end_of_value stk (Array (rev vs))
      else Failed SyntaxError
  | FObject kvs None :: stk =>
      if (c =? ",")%char then Running stack BeginString
      else if (c =? "}")%char then end_of_value stk (Object (rev kvs))
      else Failed SyntaxError
  | _ => Failed SyntaxError
  end.

(** The byte after a number ends it and is then read as the byte after a
    value; after a top-level number it is left unread. *)
Definition end_of_number (stack : list frame) (raw : string) (c : ascii) : state :=
  match end_of_value stack (Number (srev raw)) with
  | Running stk EndValue => if is_space c then Running stk EndValue else stateEndValue stk c
  | st => st
  end.

Definition stateNumber (stack : list frame) (st : numstate) (raw : string) (c : ascii) : state :=
  let next st' := Running stack (InNumber st' (String c raw)) in
  let is_e := (c =? "e")%char || (c =? "E")%char in
  match st with
  | stateNeg =>
      if (c =? "0")%char then next state0
      else if is_digit19 c then next state1
      else Failed SyntaxError
  | state1 =>
      if is_digit c then next state1
      else if (c =? ".")%char then next stateDot
      else if is_e then next stateE
      else end_of_number stack raw c
  | state0 =>
      if (c =? ".")%char then next stateDot
      else if is_e then next stateE
      else end_of_number stack raw c
  | stateDot => if is_digit c then next stateDot0 else Failed SyntaxError
  | stateDot0 =>
      if is_digit c then next stateDot0
      else if is_e then next stateE
      else end_of_number stack raw c
  | stateE =>
      if (c =? "+")%char || (c =? "-")%char then next stateESign
      else if is_digit c then next stateE0
      else Failed SyntaxError
  | stateESign => if is_digit c then next stateE0 else Failed SyntaxError
  | stateE0 => if is_digit c then next stateE0 else end_of_number stack raw c
  end.

Definition end_of_string (stack : list frame) (iskey : bool) (raw : string) : state :=
  let s := unquote (srev raw) in
  if iskey then
    match stack with
    | FObject kvs None :: stk => Running (FObject kvs (Some s) :: stk) ObjectKeyEnd
    | _ => Failed SyntaxError
    end
  else end_of_value stack (Str s).

Definition step (stack : list frame) (l : lex) (c : ascii) : state :=
  match l with
  | BeginValue => if is_space c then Running stack l else stateBeginValue stack c
  | BeginValueOrEmpty =>
      if is_space c then Running stack l
      else if (c =? "]")%char then stateEndValue stack c
      else stateBeginValue stack c
  | BeginStringOrEmpty =>
      if is_space c then Running stack l
      else if (c =? "}")%char then stateEndValue stack c
      else stateBeginString stack c
  | BeginString => if is_space c then Running stack l else stateBeginString stack c
  | ObjectKeyEnd =>
      if is_space c then Running stack l
      else if (c =? ":")%char then Running stack BeginValue
      else Failed SyntaxError
  | EndValue => if is_space c then Running stack l else stateEndValue stack c
  | InString iskey raw =>
      if (c =? dquote)%char then end_of_string stack iskey raw
      else if (c =? "\")%char then Running stack (InStringEsc iskey (String c raw))
      else if (code c <? 32)%N then Failed SyntaxError
      else Running stack (InString iskey (String c raw))
  | InStringEsc iskey raw =>
      if (c =? "b")%char || (c =? "f")%char || (c =? "n")%char || (c =? "r")%char
         || (c =? "t")%char || (c =? "\")%char || (c =? "/")%char || (c =? dquote)%char
      then Running stack (InString iskey (String c raw))
      else if (c =? "u")%char then Running stack (InStringEscU iskey (String c raw) 4)
      else Failed SyntaxError
  | InStringEscU iskey raw n =>
      if is_hex c then
        match n with
        | S (S k) => Running stack (InStringEscU iskey (String c raw) (S k))
        | _ => Running stack (InString iskey (String c raw))
        end
      else Failed SyntaxError
  | InNumber st raw => stateNumber stack st raw c
  | InLiteral rest v =>
      match rest with
      | String e rest' =>
          if (c =? e)%char then
            match rest' with
            | EmptyString => end_of_value stack v
            | _ => Running stack (InLiteral rest' v)
            end
          else Failed SyntaxError
      | EmptyString => Failed SyntaxError
      end
  end.

(** The end of the body: no value at all is [io.EOF]; a top-level number
    ends there; anything else was cut short. *)
Definition eof (stack : list frame) (l : lex) : error + value :=
  match stack, l with
  | [], BeginValue => inl EOF
  | [], InNumber (state0 | state1 | stateDot0 | stateE0) raw => inr (Number (srev raw))
  | _, _ => inl ErrUnexpectedEOF
  end.

Fixpoint scan (st : state) (s : string) : error + value :=
  match st with
  | Done v => inr v
  | Failed e => inl e
  | Running stack l =>
      match s with
      | EmptyString => eof stack l
      | String c s' => scan (step stack l c) s'
      end
  end.

(** [readValue]: the first JSON value of the body. *)
Definition readValue (body : string) : error + value :=
  scan (Running [] BeginValue) body.

(** *** Encoding a string, as [Encoder] does with HTML escaping on *)

Definition hex_digit (n : N) : ascii :=
  if (n <? 10)%N then ascii_of_N (48 + n) else ascii_of_N (87 + n).

Definition u00 (c : ascii) : string :=
  "\u00" +:+ String (hex_digit (code c / 16)) (String (hex_digit (code c mod 16)) EmptyString).

(** [skip] counts the bytes left of a sequence already dealt with; they
    are copied when [keep] is set and dropped otherwise. *)
Fixpoint escape (skip : nat) (keep : bool) (s : string) : string :=
  match s with
  | EmptyString => EmptyString
  | String c r =>
      match skip with
      | S k => if keep then String c (escape k keep r) else escape k keep r
      | O =>
          if (code c <? 128)%N then
            if (c =? dquote)%char || (c =? "\")%char then String "\" (String c (escape 0 true r))
            else if (c =? "008")%char then "\b" +:+ escape 0 true r
            else if (c =? "012")%char then "\f" +:+ escape 0 true r
            else if (c =? "010")%char then "\n" +:+ escape 0 true r
            else if (c =? "013")%char then "\r" +:+ escape 0 true r
            else if (c =? "009")%char then "\t" +:+ escape 0 true r
            else if (code c <? 32)%N || (c =? "<")%char || (c =? ">")%char || (c =? "&")%char
            then u00 c +:+ escape 0 true r
            else String c (escape 0 true r)
          else
            match utf8.sequence_length c (peek 0 r) (peek 1 r) (peek 2 r) with
            | O => "\ufffd" +:+ escape 0 true r
            | S n =>
                if (code c =? 226)%N && (String.prefix (String (ascii_of_N 128) EmptyString) r)
                then
                  match peek 1 r with
                  | Some d =>
                      if (code d =? 168)%N then "\u2028" +:+ escape 2 false r
                      else if (code d =? 169)%N then "\u2029" +:+ escape 2 false r
                      else String c (escape n true r)
                  | None => String c (escape n true r)
                  end
                else String c (escape n true r)
            end
      end
  end.

Definition quote (s : string) : string :=
  String dquote (escape 0 true s) +:+ String dquote EmptyString.

(** A struct of string fields, encoded in the order of its fields. *)
Fixpoint members (fields : list (string * string)) : string :=
  match fields with
  | [] => EmptyString
  | [(k, v)] => quote k +:+ ":" +:+ quote v
  | (k, v) :: rest => quote k +:+ ":" +:+ quote v +:+ "," +:+ members rest
  end.

Definition Marshal (fields : list (string * string)) : string :=
  "{" +:+ members fields +:+ "}".

End json.

(** ** Decimal literals to [float64], as [strconv.ParseFloat] rounds them *)

Module strconv.

(** The leading digits of [s]: their value on top of [acc], how many there
    were on top of [n], and what follows them. *)
Fixpoint digits (s : string) (acc n : Z) : Z * Z * string :=
  match s with
  | String c s' =>
      if is_digit c then digits s' (acc * 10 + Z.of_N (code c - 48)) (n + 1)
      else (acc, n, s)
  | EmptyString => (acc, n, s)
  end.

(** The binary64 number nearest to [mant * 10 ^ e10] (ties to even). *)
Definition nearest (neg : bool) (mant e10 : Z) : spec_float :=
  match mant with
  | Zpos m =>
      if 0 <=? e10 then
        binary_normalize prec emax ((if neg then - mant else mant) * 10 ^ e10) 0 false
      else
        match 10 ^ (- e10) with
        | Zpos d => SFdiv prec emax (S754_finite neg m 0) (S754_finite false d 0)
        | _ => S754_nan
        end
  | _ => S754_zero neg
  end.

Definition exponent (s : string) : Z :=
  match s with
  | String c r =>
      if (c =? "e")%char || (c =? "E")%char then
        match r with
        | String sg r' =>
            if (sg =? "-")%char then - (digits r' 0 0).1.1
            else if (sg =? "+")%char then (digits r' 0 0).1.1
            else (digits r 0 0).1.1
        | EmptyString => 0
        end
      else 0
  | EmptyString => 0
  end.

(** [ParseFloat lit 64] for a literal the scanner accepted: [None] is
    [ErrRange], the value being too large for a [float64]. *)
Definition ParseFloat (lit : string) : option float :=
  let '(neg, s) :=
    match lit with
    | String c s' => if (c =? "-")%char then (true, s') else (false, lit)
    | EmptyString => (false, lit)
    end in
  let '(m1, _, r1) := digits s 0 0 in
  let '(m2, k, r2) :=
    match r1 with
    | String c r => if (c =? ".")%char then digits r m1 0 else (m1, 0, r1)
    | EmptyString => (m1, 0, r1)
    end in
  match nearest neg m2 (exponent r2 - k) with
  | S754_infinity _ => None
  | f => Some (SF2Prim f)
  end.

End strconv.

(** ** The handler's surroundings: [net/http] and [fmt] *)

Module http.

Definition StatusOK : Z := 200.
Definition StatusBadRequest : Z := 400.

(** A request as the handler sees it. [Body] is the body as received. *)
Record Request : Type := { Method : string; Body : string }.

(** The state behind an [http.ResponseWriter]: the header map, the status
    line once it is written (with the headers sent along), and the body
    written so far. *)
Record ResponseWriter : Type := {
  header : gmap string (list string);
  wroteHeader : option (Z * gmap string (list string));
  written : string
}.

Definition NewResponseWriter : ResponseWriter :=
  {| header := ∅; wroteHeader := None; written := EmptyString |}.

Inductive call : Type :=
| Header_Set (key value : string)
| Header_Del (key : string)
| WriteHeader (statusCode : Z)
| Write (data : string).

Definition doWriteHeader (statusCode : Z) (w : ResponseWriter) : ResponseWriter :=
  match wroteHeader w with
  | Some _ => w
  | None =>
      {| header := header w; wroteHeader := Some (statusCode, header w); written := written w |}
  end.

Definition do (c : call) (w : ResponseWriter) : ResponseWriter :=
  match c with
  | Header_Set k v =>
      {| header := <[k := [v]]> (header w); wroteHeader := wroteHeader w; written := written w |}
  | Header_Del k =>
      {| header := delete k (header w); wroteHeader := wroteHeader w; written := written w |}
  | WriteHeader statusCode => doWriteHeader statusCode w
  | Write data =>
      let w' := doWriteHeader StatusOK w in
      {| header := header w'; wroteHeader := wroteHeader w'; written := written w' +:+ data |}
  end.

(** What the handler has made of the response once it has returned: the
    status code, the headers it set and the body it wrote. (The server
    adds headers of its own, such as [Date], when it sends them.) A handler
    that wrote nothing leaves an empty 200. *)
Record Response : Type := {
  StatusCode : Z;
  Header : gmap string (list string);
  Content : string
}.

Definition finish (w : ResponseWriter) : Response :=
  match wroteHeader w with
  | Some (statusCode, h) => {| StatusCode := statusCode; Header := h; Content := written w |}
  | None => {| StatusCode := StatusOK; Header := header w; Content := EmptyString |}
  end.

End http.

Module fmt.

Inductive arg : Type :=
| String_ (s : string)
| Float64 (f : float).

(** One [Printf] on standard output: the format and its operands. *)
Record printed : Type := { format : string; args : list arg }.

End fmt.

(** ** Programs: the calls a handler makes, in order *)

Inductive action : Type :=
| OnWriter (c : http.call)
| Print (p : fmt.printed).

Inductive Prog (A : Type) : Type :=
| Ret (a : A)
| Do (e : action) (k : Prog A).

Arguments Ret {A} a.
Arguments Do {A} e k.

Fixpoint bind {A B : Type} (m : Prog A) (f : A -> Prog B) : Prog B :=
  match m with
  | Ret a => f a
  | Do e k => Do e (bind k f)
  end.

#[global] Instance Prog_ret : MRet Prog := @Ret.
#[global] Instance Prog_bind : MBind Prog := fun A B f m => bind m f.

Definition call (c : http.call) : Prog unit := Do (OnWriter c) (Ret tt).

Definition Printf (format : string) (args : list fmt.arg) : Prog unit :=
  Do (Print {| fmt.format := format; fmt.args := args |}) (Ret tt).

(** [fmt.Fprintln(w, s)] on a response writer. *)
Definition Fprintln (s : string) : Prog unit := call (http.Write (s +:+ nl)).

(** [http.Error(w, error, code)]. *)
Definition http_Error (error : string) (statusCode : Z) : Prog unit :=
  call (http.Header_Del "Content-Length") ;;
  call (http.Header_Set "Content-Type" "text/plain; charset=utf-8") ;;
  call (http.Header_Set "X-Content-Type-Options" "nosniff") ;;
  call (http.WriteHeader statusCode) ;;
  Fprintln error.

(** The world a handler acts on: its own writer, and the process's
    standard output. *)
Record World : Type := { writer : http.ResponseWriter; stdout : list fmt.printed }.

Definition perform (e : action) (σ : World) : World :=
  match e with
  | OnWriter c => {| writer := http.do c (writer σ); stdout := stdout σ |}
  | Print p => {| writer := writer σ; stdout := stdout σ ++ [p] |}
  end.

Fixpoint run {A : Type} (m : Prog A) (σ : World) : A * World :=
  match m with
  | Ret a => (a, σ)
  | Do e k => run k (perform e σ)
  end.

(** ** [services/notifications.go] *)

Module notifications.

Definition NotifyHandler (r : http.Request) : Prog unit :=
  (* TODO: handle webhook retries *)
  Fprintln "Notification received".

End notifications.

(** ** [services/payments/processor.go] *)

Module payments.

Record PaymentRequest : Type := { OrderID : string; Amount : float }.

Record PaymentResponse : Type := { Status : string; Message : string }.

(** *** Decoding the body into a [PaymentRequest]

    [Unmarshal] follows [decode.go] for this struct: a key names a field
    when it equals the field's tag up to the case of its letters; a later
    key overrides an earlier one; [null] leaves a field as it is; a value
    of the wrong kind is an error, the first of which is returned once the
    whole object has been read. *)

Definition kind (v : json.value) : string :=
  match v with
  | json.Null => "null"
  | json.Bool _ => "bool"
  | json.Number _ => "number"
  | json.Str _ => "string"
  | json.Array _ => "array"
  | json.Object _ => "object"
  end.

Definition field (st : PaymentRequest * option json.error) (kv : string * json.value)
  : PaymentRequest * option json.error :=
  let '(req, err) := st in
  let '(k, v) := kv in
  let fail (what name : string) :=
    (req, match err with
          | Some e => Some e
          | None => Some (json.UnmarshalTypeError what name)
          end) in
  if String.eqb (lower_string k) "order_id" then
    match v with
    | json.Str s => ({| OrderID := s; Amount := Amount req |}, err)
    | json.Null => (req, err)
    | _ => fail (kind v) "order_id"
    end
  else if String.eqb (lower_string k) "amount" then
    match v with
    | json.Number lit =>
        match strconv.ParseFloat lit with
        | Some f => ({| OrderID := OrderID req; Amount := f |}, err)
        | None => fail ("number " +:+ lit) "amount"
        end
    | json.Null => (req, err)
    | _ => fail (kind v) "amount"
    end
  else (req, err).

Definition Unmarshal (v : json.value) (req : PaymentRequest) : json.error + PaymentRequest :=
  match v with
  | json.Null => inr req
  | json.Object kvs =>
      match foldl field (req, None) kvs with
      | (req', None) => inr req'
      | (_, Some e) => inl e
      end
  | _ => inl (json.UnmarshalTypeError (kind v) EmptyString)
  end.

(** [json.NewDecoder(r.Body).Decode(&req)] on a zero [req]. *)
Definition Decode (body : string) : json.error + PaymentRequest :=
  match json.readValue body with
  | inl e => inl e
  | inr v => Unmarshal v {| OrderID := EmptyString; Amount := 0%float |}
  end.

(** [json.NewEncoder(w).Encode(resp)]: the encoding and a line feed, in
    one [Write]. *)
Definition Marshal (resp : PaymentResponse) : string :=
  json.Marshal [("status", Status resp); ("message", Message resp)].

Definition Encode (resp : PaymentResponse) : Prog unit :=
  call (http.Write (Marshal resp +:+ nl)).

(** What a client reads in a response body: the [PaymentResponse] it
    holds, if it is a JSON object with the two string fields. *)
Definition outcome_of (resp : http.Response) : option PaymentResponse :=
  match json.readValue (http.Content resp) with
  | inr (json.Object [("status", json.Str s); ("message", json.Str m)]) =>
      Some {| Status := s; Message := m |}
  | _ => None
  end.

(** *** The handler

    The decoder is the standard library's, not this repository's: the
    handler is stated over any [decode], and [Decode] above is the one the
    concrete runs use. *)

Section Handler.

Variable decode : string -> json.error + PaymentRequest.

Definition Processor (r : http.Request) : Prog unit :=
  match decode (http.Body r) with
  | inl err => http_Error "Invalid request" http.StatusBadRequest
  | inr req =>
      (* simulate processing *)
      Printf ("Processing payment for order %s: $%.2f" +:+ nl)
             [fmt.String_ (OrderID req); fmt.Float64 (Amount req)] ;;
      let resp := {| Status := "success"; Message := "Payment processed" |} in
      call (http.Header_Set "Content-Type" "application/json") ;;
      Encode resp
  end.

(** One request served from start to end on a writer of its own. *)
Definition ServeHTTP (r : http.Request) (out : list fmt.printed)
  : http.Response * list fmt.printed :=
  let σ := (run (Processor r) {| writer := http.NewResponseWriter; stdout := out |}).2 in
  (http.finish (writer σ), stdout σ).

(** Requests served one after the other by one process. *)
Fixpoint serve (rs : list http.Request) (out : list fmt.printed)
  : list http.Response * list fmt.printed :=
  match rs with
  | [] => ([], out)
  | r :: rs' =>
      let '(resp, out') := ServeHTTP r out in
      let '(resps, out'') := serve rs' out' in
      (resp :: resps, out'')
  end.

(** *** Handlers running concurrently

    [net/http] runs each request's handler in a goroutine of its own. A
    handler owns its writer; standard output is shared. One step of the
    server is one call of one handler. *)

Record handler : Type := { todo : Prog unit; rw : http.ResponseWriter }.

Record server : Type := { handlers : list handler; out : list fmt.printed }.

Inductive step : server -> server -> Prop :=
| step_handler (s : server) (i : nat) (e : action) (k : Prog unit) (w : http.ResponseWriter) :
    handlers s !! i = Some {| todo := Do e k; rw := w |} ->
    step s {| handlers :=
                <[i := {| todo := k;
                          rw := writer (perform e {| writer := w; stdout := out s |}) |}]>
                  (handlers s);
              out := stdout (perform e {| writer := w; stdout := out s |}) |}.

Definition spawn (r : http.Request) : handler :=
  {| todo := Processor r; rw := http.NewResponseWriter |}.

Definition start (rs : list http.Request) (o : list fmt.printed) : server :=
  {| handlers := spawn <$> rs; out := o |}.

Definition returned (h : handler) : Prop := todo h = Ret tt.

Definition finished (s : server) : Prop := Forall returned (handlers s).

Definition responses (s : server) : list http.Response :=
  (fun h => http.finish (rw h)) <$> handlers s.

End Handler.

(** *** Replies, and how they are read *)

(** The two replies [Processor] can give. *)
Definition ok_reply : http.Response :=
  {| http.StatusCode := 200;
     http.Header := {[ "Content-Type" := ["application/json"] ]};
     http.Content := qq "{'status':'success','message':'Payment processed'}" +:+ nl |}.

Definition bad_request_reply : http.Response :=
  {| http.StatusCode := 400;
     http.Header := {[ "Content-Type" := ["text/plain; charset=utf-8"];
                       "X-Content-Type-Options" := ["nosniff"] ]};
     http.Content := "Invalid request" +:+ nl |}.

(** The line a decoded request leaves on standard output. *)
Definition processing_line (req : PaymentRequest) : fmt.printed :=
  {| fmt.format := "Processing payment for order %s: $%.2f" +:+ nl;
     fmt.args := [fmt.String_ (OrderID req); fmt.Float64 (Amount req)] |}.

Definition reply_for (decode : string -> json.error + PaymentRequest) (r : http.Request)
  : http.Response :=
  match decode (http.Body r) with
  | inl _ => bad_request_reply
  | inr _ => ok_reply
  end.


Definition post (body : string) : http.Request :=
  {| http.Method := "POST"; http.Body := body |}.

(** A request the design document calls valid: a non-empty order id and
    a positive amount. *)
Definition valid (req : PaymentRequest) : Prop :=
  OrderID req <> EmptyString /\ (0 <? Amount req)%float = true.

(** Whether a reply carries a [PaymentResponse] of the given status, and
    how many replies of a list do. *)
Definition has_status (st : string) (resp : http.Response) : bool :=
  match outcome_of resp with
  | Some o => String.eqb (Status o) st
  | None => false
  end.

Definition count_status (st : string) (resps : list http.Response) : nat :=
  length (List.filter (has_status st) resps).

Definition success : PaymentResponse :=
  {| Status := "success"; Message := "Payment processed" |}.

(** The reply a handler will have given once it has run to its end. *)
Definition result_of (h : handler) : http.Response :=
  http.finish (writer (run (todo h) {| writer := rw h; stdout := [] |}).2).

(** A body that holds nothing but JSON white space (an empty body is
    one). *)
Fixpoint blank (s : string) : bool :=
  match s with
  | EmptyString => true
  | String c s' => is_space c && blank s'
  end.


(** The scenario body of the design document and a second one for the same
    order with another amount. *)
Definition ord_1 : http.Request := post (qq "{'order_id':'ord-1','amount':42.50}").
Definition ord_1_again : http.Request := post (qq "{'order_id':'ord-1','amount':99}").
Definition ord_2 : http.Request := post (qq "{'order_id':'ord-2','amount':7}").

End payments.

(** ** [models/Order.java] *)

Module models.

(** [java.time.LocalDate]. *)
Record LocalDate : Type := { year : Z; month : Z; dayOfMonth : Z }.

Section Order.

(** [Order extends BaseEntity]: the superclass is not among the source
    files, so whatever state it holds is a parameter. *)
Variable BaseEntity : Type.

Record Order : Type := {
  super : BaseEntity;
  id : string;
  items : list string;
  total : float;
  createdDate : LocalDate
}.

(** The constructor; [base] is what [super()] sets up and [today] what
    [LocalDate.now()] returns. *)
Definition new (base : BaseEntity) (today : LocalDate)
    (id : string) (items : list string) (total : float) : Order :=
  {| super := base; id := id; items := items; total := total; createdDate := today |}.

(** A method call returns its result and the object as it leaves it. The
    literal [1] is the [int] one, widened to [double]; the sum and the
    product are those of IEEE 754 binary64. *)
Definition calculateTotalWithTax (this : Order) (taxRate : float) : float * Order :=
  ((total this * (1 + taxRate))%float, this).

End Order.

Arguments super {BaseEntity} _.
Arguments id {BaseEntity} _.
Arguments items {BaseEntity} _.
Arguments total {BaseEntity} _.
Arguments createdDate {BaseEntity} _.
Arguments calculateTotalWithTax {BaseEntity} this taxRate.

End models.

(** ** The idempotency ledger of the design document

    The source files hold no ledger: [Processor] keeps no state between
    requests. The definitions below follow the words of the design
    document (its sections 3, 4.1 to 4.3), so that what it says of the
    ledger can be examined. *)

Module ledger.

Import payments.

(** Modelled from the spec: the [IdempotencyLedger], a mapping from
    order_id to acceptance timestamp, and [tryAccept(order_id, now)], which
    "checks whether order_id is already recorded; if absent, records it
    with timestamp now and returns true; if present, returns false without
    mutation". Neither is in the source files. *)
Definition tryAccept (order_id : string) (now : Z) (l : gmap string Z) : bool * gmap string Z :=
  match l !! order_id with
  | None => (true, <[order_id := now]> l)
  | Some _ => (false, l)
  end.

(** Modelled from the spec: the two validation errors of its sections 4.1
    and 7, the three outcomes of its section 3, and the error detail its
    scenarios show in the message. None is in the source files. *)
Inductive ValidationError : Type :=
| MalformedPayload
| InvalidField (name : string).

Inductive status : Type := accepted | duplicate | rejected.

Record PaymentOutcome : Type := { outcome : status; message : string }.

Definition detail (e : ValidationError) : string :=
  match e with
  | MalformedPayload => "MalformedPayload"
  | InvalidField name => "InvalidField: " +:+ name
  end.

Section Design.

Variable decode : string -> json.error + PaymentRequest.

(** Modelled from the spec: [validate(raw bytes)], which fails with
    [MalformedPayload] when the input cannot be parsed and with
    [InvalidField] naming the field when order_id is empty or amount is not
    positive. It is not in the source files. *)
Definition validate (raw : string) : ValidationError + PaymentRequest :=
  match decode raw with
  | inl _ => inl MalformedPayload
  | inr req =>
      if String.eqb (OrderID req) EmptyString then inl (InvalidField "order_id")
      else if (Amount req <=? 0)%float then inl (InvalidField "amount")
      else inr req
  end.

(** Modelled from the spec: [handle(raw bytes)], which rejects on a
    validation error and otherwise asks the ledger, with the current time.
    It is not in the source files. *)
Definition handle (raw : string) (now : Z) (l : gmap string Z) : PaymentOutcome * gmap string Z :=
  match validate raw with
  | inl e => ({| outcome := rejected; message := detail e |}, l)
  | inr req =>
      let '(fresh, l') := tryAccept (OrderID req) now l in
      if fresh then ({| outcome := accepted; message := "Payment processed" |}, l')
      else ({| outcome := duplicate; message := "Order already processed" |}, l')
  end.

(** Modelled from the spec: the operations that reach the ledger
    ([tryAccept] itself, and [handle], which calls it), and a sequence of
    them run from a ledger [l]: the final ledger and, in order, the order
    ids reported as newly accepted. *)
Inductive op : Type :=
| TryAccept (order_id : string) (now : Z)
| Handle (raw : string) (now : Z).

Definition apply (o : op) (l : gmap string Z) : option string * gmap string Z :=
  match o with
  | TryAccept order_id now =>
      let '(fresh, l') := tryAccept order_id now l in
      (if fresh then Some order_id else None, l')
  | Handle raw now =>
      let '(res, l') := handle raw now l in
      (match validate raw, outcome res with
       | inr req, accepted => Some (OrderID req)
       | _, _ => None
       end, l')
  end.

Fixpoint exec (ops : list op) (l : gmap string Z) : list string * gmap string Z :=
  match ops with
  | [] => ([], l)
  | o :: ops' =>
      let '(created, l') := apply o l in
      let '(rest, l'') := exec ops' l' in
      (match created with Some k => k :: rest | None => rest end, l'')
  end.

End Design.

End ledger.

(** ** [scripts/deploy.ts]

    A script acts on the console and on the shell. What a command does
    when the shell runs it is not the script's: it is a parameter, [sh]. *)

Module scripts.

(** How a child process ended. *)
Inductive child : Type :=
| Exited (status : Z)
| Signalled (signal : string)
| NotSpawned (error : string).

Inductive event : Type :=
| console_log (line : string)
| exec (command : string).

Inductive completion (A : Type) : Type :=
| Returns (a : A)
| Throws (error : string).

Arguments Returns {A} a.
Arguments Throws {A} error.

(** A script: given the shell and the events so far, the events after it
    and how it completed. *)
Definition Script (A : Type) : Type :=
  (string -> child) -> list event -> list event * completion A.

#[global] Instance Script_ret : MRet Script := fun A a sh events => (events, Returns a).

#[global] Instance Script_bind : MBind Script := fun A B f m sh events =>
  match m sh events with
  | (events', Returns a) => f a sh events'
  | (events', Throws error) => (events', Throws error)
  end.

Definition log (line : string) : Script unit :=
  fun sh events => (events ++ [console_log line], Returns tt).

(** [execSync(command, { stdio: "inherit" })]: the command is run to its
    end, and anything but an exit with status 0 is thrown. *)
Definition execSync (command : string) : Script unit :=
  fun sh events =>
    (events ++ [exec command],
     match sh command with
     | Exited 0 => Returns tt
     | _ => Throws ("Command failed: " +:+ command)
     end).

Definition scp : string := "scp -r ../frontend/dist/* user@server:/var/www/html/".

Definition deploy : Script unit :=
  log "Deploying application..." ;;
  execSync scp ;;
  log "Frontend deployed.".

(** The script itself: its one statement is the call [deploy()]. *)
Definition main (sh : string -> child) : list event * completion unit := deploy sh [].

End scripts.

(** ** Schedules

    The order in which the scheduler lets the handlers take their steps,
    as a list of handler indices, and what is left to do in a server. *)

Module schedules.

Import payments.

(** The calls a program still has to make, and the lines among them that
    go to standard output. *)
Fixpoint calls {A : Type} (m : Prog A) : nat :=
  match m with
  | Ret _ => 0%nat
  | Do _ k => S (calls k)
  end.

Fixpoint prints {A : Type} (m : Prog A) : list fmt.printed :=
  match m with
  | Ret _ => []
  | Do (Print p) k => p :: prints k
  | Do (OnWriter _) k => prints k
  end.

Definition remaining (s : server) : nat :=
  sum_list_with (fun h => calls (todo h)) (handlers s).

Definition pending (s : server) : list fmt.printed :=
  concat ((fun h => prints (todo h)) <$> handlers s).

(** Handler [i] takes its next step, if it has one. *)
Definition fire (i : nat) (s : server) : server :=
  match handlers s !! i with
  | Some {| todo := Do e k; rw := w |} =>
      {| handlers :=
           <[i := {| todo := k;
                     rw := writer (perform e {| writer := w; stdout := out s |}) |}]>
             (handlers s);
         out := stdout (perform e {| writer := w; stdout := out s |}) |}
  | _ => s
  end.

Definition fires (schedule : list nat) (s : server) : server :=
  foldl (fun s i => fire i s) s schedule.

(** The steps a schedule really takes: an index that names no handler, or
    one that has returned, takes none. *)
Definition active (i : nat) (s : server) : bool :=
  match handlers s !! i with
  | Some {| todo := Do _ _; rw := _ |} => true
  | _ => false
  end.

Fixpoint fired (schedule : list nat) (s : server) : nat :=
  match schedule with
  | [] => 0%nat
  | i :: schedule' => ((if active i s then 1 else 0) + fired schedule' (fire i s))%nat
  end.

(** The number of calls [Processor] makes for a request: three when the
    body decodes ([Printf], [Header().Set], [Write]), five when it does not
    (the calls of [http.Error]). *)
Definition cost (decode : string -> json.error + PaymentRequest) (r : http.Request) : nat :=
  match decode (http.Body r) with
  | inl _ => 5%nat
  | inr _ => 3%nat
  end.

(** Deliveries to [NotifyHandler], each on a writer of its own, served
    concurrently. *)
Definition notify (r : http.Request) : handler :=
  {| todo := notifications.NotifyHandler r; rw := http.NewResponseWriter |}.

Definition notify_start (rs : list http.Request) (o : list fmt.printed) : server :=
  {| handlers := notify <$> rs; out := o |}.

Definition acknowledgement : http.Response :=
  {| http.StatusCode := 200;
     http.Header := ∅;
     http.Content := "Notification received" +:+ nl |}.

(** The requests of the examples: one that decodes and one that does
    not, and a schedule that interleaves their handlers to the end. *)
Definition two_requests : list http.Request := [ord_1; post "not json"].
Definition interleaved : list nat := [1; 0; 1; 1; 0; 1; 0; 1]%nat.

End schedules.

(** * Properties *)

(** ** The notification handler *)

Module notifications_facts.

(** [NotifyHandler] answers every request with status 200 and the line
    [Notification received]; it sets no header and prints nothing. *)
Theorem NotifyHandler_reply (r : http.Request) (out : list fmt.printed) :
  run (notifications.NotifyHandler r) {| writer := http.NewResponseWriter; stdout := out |}
  = (tt, {| writer := {| http.header := ∅;
                         http.wroteHeader := Some (200, ∅);
                         http.written := "Notification received" +:+ nl |};
            stdout := out |}).
Proof. reflexivity. Qed.

End notifications_facts.

(** ** The handler, run on its own *)

Module payments_facts.

Import payments.

Section Sequential.

Variable decode : string -> json.error + PaymentRequest.

Lemma ServeHTTP_decoded (r : http.Request) (req : PaymentRequest) (out : list fmt.printed) :
  decode (http.Body r) = inr req ->
  ServeHTTP decode r out = (ok_reply, out ++ [processing_line req]).
Proof.
  intros Hd. unfold ServeHTTP, Processor. rewrite Hd. reflexivity.
Qed.

Lemma ServeHTTP_undecoded (r : http.Request) (e : json.error) (out : list fmt.printed) :
  decode (http.Body r) = inl e ->
  ServeHTTP decode r out = (bad_request_reply, out).
Proof.
  intros Hd. unfold ServeHTTP, Processor. rewrite Hd. reflexivity.
Qed.

Lemma ServeHTTP_reply (r : http.Request) (out : list fmt.printed) :
  (ServeHTTP decode r out).1 = reply_for decode r.
Proof.
  unfold reply_for. destruct (decode (http.Body r)) as [e|req] eqn:Hd.
  - by rewrite (ServeHTTP_undecoded r e out Hd).
  - by rewrite (ServeHTTP_decoded r req out Hd).
Qed.

(** In a sequence of requests, the reply to each one is the reply it
    would get alone: what came before plays no part. *)
Lemma serve_replies (rs : list http.Request) (out : list fmt.printed) :
  (serve decode rs out).1 = reply_for decode <$> rs.
Proof.
  revert out. induction rs as [|r rs IH]; intros out; [reflexivity|].
  cbn [serve]. pose proof (ServeHTTP_reply r out) as Hr.
  destruct (ServeHTTP decode r out) as [resp out'].
  specialize (IH out'). destruct (serve decode rs out') as [resps out''].
  cbn in *. by rewrite Hr, IH.
Qed.

Lemma serve_reply_at (rs : list http.Request) (out : list fmt.printed) (i : nat) (r : http.Request) :
  rs !! i = Some r ->
  (serve decode rs out).1 !! i = Some (reply_for decode r).
Proof.
  intros Hi. rewrite serve_replies, list_lookup_fmap, Hi. reflexivity.
Qed.

End Sequential.

Lemma outcome_of_ok_reply : outcome_of ok_reply = Some success.
Proof. reflexivity. Qed.

Lemma outcome_of_bad_request_reply : outcome_of bad_request_reply = None.
Proof. reflexivity. Qed.

(** ** Handlers running concurrently *)

(** What a program does to its writer does not depend on what standard
    output holds. *)
Lemma run_writer_stdout {A : Type} (m : Prog A) (w : http.ResponseWriter)
    (o1 o2 : list fmt.printed) :
  writer (run m {| writer := w; stdout := o1 |}).2
  = writer (run m {| writer := w; stdout := o2 |}).2.
Proof.
  revert w o1 o2. induction m as [a|e k IH]; intros w o1 o2; [reflexivity|].
  destruct e; cbn; apply IH.
Qed.

Lemma step_result_of (s s' : server) :
  step s s' -> result_of <$> handlers s' = result_of <$> handlers s.
Proof.
  intros [s0 i e k w Hi]. cbn. rewrite list_fmap_insert.
  apply list_insert_id. rewrite list_lookup_fmap, Hi. cbn. f_equal.
  unfold result_of. cbn. f_equal. destruct e; cbn; [reflexivity|].
  apply run_writer_stdout.
Qed.

Lemma steps_result_of (s s' : server) :
  rtc step s s' -> result_of <$> handlers s' = result_of <$> handlers s.
Proof.
  induction 1 as [|s1 s2 s3 H12 _ IH]; [reflexivity|].
  rewrite IH. by apply step_result_of.
Qed.

Lemma finished_result_of (s : server) :
  finished s -> responses s = result_of <$> handlers s.
Proof.
  unfold finished, responses. induction 1 as [|h hs Hh _ IH]; [reflexivity|].
  cbn. rewrite IH. f_equal. unfold result_of. unfold returned in Hh.
  by rewrite Hh.
Qed.

(** One handler can always be run to its end, whatever the others are
    doing. *)
Lemma handler_runs (m : Prog unit) (w : http.ResponseWriter)
    (pre post : list handler) (o : list fmt.printed) :
  exists (w' : http.ResponseWriter) (o' : list fmt.printed),
    rtc step {| handlers := pre ++ {| todo := m; rw := w |} :: post; out := o |}
             {| handlers := pre ++ {| todo := Ret tt; rw := w' |} :: post; out := o' |}.
Proof.
  revert w o. induction m as [[]|e k IH]; intros w o.
  - exists w, o. apply rtc_refl.
  - destruct (IH (writer (perform e {| writer := w; stdout := o |}))
                 (stdout (perform e {| writer := w; stdout := o |}))) as (w' & o' & Hk).
    exists w', o'. eapply rtc_l; [|exact Hk].
    pose proof (step_handler
      {| handlers := pre ++ {| todo := Do e k; rw := w |} :: post; out := o |}
      (length pre) e k w) as Hs.
    cbn in Hs. rewrite list_lookup_middle in Hs by reflexivity.
    specialize (Hs eq_refl).
    rewrite insert_app_r_alt, Nat.sub_diag in Hs by reflexivity. exact Hs.
Qed.

Lemma can_finish_from (done rest : list handler) (o : list fmt.printed) :
  Forall returned done ->
  exists s' : server,
    rtc step {| handlers := done ++ rest; out := o |} s' /\ finished s'.
Proof.
  revert done o. induction rest as [|[m w] rest IH]; intros done o Hdone.
  - exists {| handlers := done ++ []; out := o |}. split; [apply rtc_refl|].
    unfold finished. cbn. by rewrite app_nil_r.
  - destruct (handler_runs m w done rest o) as (w' & o' & Hrun).
    destruct (IH (done ++ [{| todo := Ret tt; rw := w' |}]) o') as (s' & Hs' & Hfin).
    + apply Forall_app. split; [exact Hdone|]. by constructor.
    + exists s'. split; [|exact Hfin].
      etrans; [exact Hrun|]. by rewrite <- app_assoc in Hs'.
Qed.

(** No state of the server is stuck: the handlers still running can
    always be brought to their ends. *)
Lemma can_finish (s : server) : exists s' : server, rtc step s s' /\ finished s'.
Proof.
  destruct s as [hs o]. apply (can_finish_from [] hs o). constructor.
Qed.

Section Concurrent.

Variable decode : string -> json.error + PaymentRequest.

Lemma result_of_spawn (r : http.Request) :
  result_of (spawn decode r) = reply_for decode r.
Proof. apply (ServeHTTP_reply decode r []). Qed.

(** However the steps of the handlers interleave, each caller gets the
    reply it would get alone. *)
Lemma concurrent_replies (rs : list http.Request) (o : list fmt.printed) (s : server) :
  rtc step (start decode rs o) s -> finished s ->
  responses s = reply_for decode <$> rs.
Proof.
  intros Hsteps Hfin. rewrite (finished_result_of s Hfin).
  rewrite (steps_result_of _ _ Hsteps). unfold start. cbn.
  rewrite <- list_fmap_compose. apply list_fmap_ext.
  intros i r _. apply result_of_spawn.
Qed.

End Concurrent.

(** ** Further facts about the handlers *)

(** The handler never looks at the request's method: a body sent with
    any method is answered as if it had been posted. *)
Remark Processor_ignores_method
    (decode : string -> json.error + PaymentRequest)
    (m1 m2 body : string) (out : list fmt.printed) :
  ServeHTTP decode {| http.Method := m1; http.Body := body |} out
  = ServeHTTP decode {| http.Method := m2; http.Body := body |} out.
Proof. reflexivity. Qed.


(** ** What the design document says of [handle], checked on [Processor] *)

(** C1, as stated, fails: the second of two calls for order [ord-1] is
    answered with status [success] and message [Payment processed], not
    with [duplicate] and [Order already processed]. *)
Lemma second_call_is_not_duplicate :
  exists (req1 req2 : PaymentRequest) (resp : http.Response),
    Decode (http.Body ord_1) = inr req1 /\ valid req1 /\
    Decode (http.Body ord_1_again) = inr req2 /\ valid req2 /\
    OrderID req2 = OrderID req1 /\
    (serve Decode [ord_1; ord_1_again] []).1 !! 1%nat = Some resp /\
    outcome_of resp = Some success /\
    outcome_of resp <> Some {| Status := "duplicate"; Message := "Order already processed" |}.
Proof.
  exists {| OrderID := "ord-1"; Amount := 42.5 |}, {| OrderID := "ord-1"; Amount := 99 |}, ok_reply.
  repeat split; try reflexivity; try discriminate.
Qed.

(** C1, amended: for valid requests, every call after the first with the
    same order id is answered exactly as the first one was, with HTTP 200,
    status [success] and message [Payment processed], whatever amount the
    later call carries; no [duplicate] outcome is produced. *)
Theorem later_call_same_order_succeeds
    (decode : string -> json.error + PaymentRequest)
    (rs : list http.Request) (i j : nat) (ri rj : http.Request) (reqi reqj : PaymentRequest) :
  (i < j)%nat ->
  rs !! i = Some ri -> rs !! j = Some rj ->
  decode (http.Body ri) = inr reqi -> decode (http.Body rj) = inr reqj ->
  valid reqi -> valid reqj ->
  OrderID reqj = OrderID reqi ->
  exists resp : http.Response,
    (serve decode rs []).1 !! j = Some resp /\
    (serve decode rs []).1 !! i = Some resp /\
    http.StatusCode resp = 200 /\
    outcome_of resp = Some success.
Proof.
  intros _ Hi Hj Hdi Hdj _ _ _. exists ok_reply.
  rewrite (serve_reply_at decode rs [] j rj Hj), (serve_reply_at decode rs [] i ri Hi).
  unfold reply_for. rewrite Hdi, Hdj. repeat split; reflexivity.
Qed.

(** Three requests, the first and the last for order [ord-1] with
    different amounts. *)
Lemma later_call_same_order_succeeds_witness :
  exists resp : http.Response,
    (serve Decode [ord_1; ord_2; ord_1_again] []).1 !! 2%nat = Some resp /\
    (serve Decode [ord_1; ord_2; ord_1_again] []).1 !! 0%nat = Some resp /\
    http.StatusCode resp = 200 /\
    outcome_of resp = Some success.
Proof.
  apply (later_call_same_order_succeeds Decode [ord_1; ord_2; ord_1_again] 0 2
           ord_1 ord_1_again
           {| OrderID := "ord-1"; Amount := 42.5 |} {| OrderID := "ord-1"; Amount := 99 |});
    try reflexivity; try lia; split; try reflexivity; discriminate.
Defined.

(** C2, as stated, fails: the first call with the scenario body
    [{"order_id":"ord-1","amount":42.50}] is answered with HTTP 200 and
    message [Payment processed], but its status is [success], not
    [accepted]. *)
Lemma first_call_is_not_accepted :
  exists (req : PaymentRequest) (resp : http.Response),
    Decode (http.Body ord_1) = inr req /\ valid req /\
    (serve Decode [ord_1] []).1 !! 0%nat = Some resp /\
    http.StatusCode resp = 200 /\
    outcome_of resp = Some {| Status := "success"; Message := "Payment processed" |} /\
    outcome_of resp <> Some {| Status := "accepted"; Message := "Payment processed" |}.
Proof.
  exists {| OrderID := "ord-1"; Amount := 42.5 |}, ok_reply.
  repeat split; try reflexivity; try discriminate.
Qed.

(** C2, amended: for every valid request, the first call for its order id
    (no earlier request decodes to that order id) is answered with HTTP 200
    and a [PaymentResponse] of status [success] and message
    [Payment processed]. *)
Theorem first_call_succeeds
    (decode : string -> json.error + PaymentRequest)
    (before : list http.Request) (r : http.Request) (req : PaymentRequest) :
  decode (http.Body r) = inr req ->
  valid req ->
  Forall (fun r' => forall req', decode (http.Body r') = inr req' -> OrderID req' <> OrderID req)
         before ->
  exists resp : http.Response,
    (serve decode (before ++ [r]) []).1 !! length before = Some resp /\
    http.StatusCode resp = 200 /\
    outcome_of resp = Some {| Status := "success"; Message := "Payment processed" |}.
Proof.
  intros Hd _ _. exists ok_reply.
  rewrite (serve_reply_at decode (before ++ [r]) [] (length before) r).
  - unfold reply_for. rewrite Hd. repeat split; reflexivity.
  - by rewrite list_lookup_middle.
Qed.

(** Order [ord-1] first seen after a request for order [ord-2]. *)
Lemma first_call_succeeds_witness :
  exists resp : http.Response,
    (serve Decode ([ord_2] ++ [ord_1]) []).1 !! length [ord_2] = Some resp /\
    http.StatusCode resp = 200 /\
    outcome_of resp = Some {| Status := "success"; Message := "Payment processed" |}.
Proof.
  apply (first_call_succeeds Decode [ord_2] ord_1 {| OrderID := "ord-1"; Amount := 42.5 |}).
  - reflexivity.
  - split; [discriminate | reflexivity].
  - constructor; [|constructor]. intros req' Hreq'.
    vm_compute in Hreq'. injection Hreq' as <-. discriminate.
Defined.

(** C4, as stated, fails: the body [not json] does not decode, and the
    reply has HTTP status 400, but its body is the plain text
    [Invalid request], which holds no [PaymentOutcome] at all, so none of
    status [rejected]. *)
Lemma malformed_body_has_no_outcome :
  exists (e : json.error) (resp : http.Response),
    Decode "not json" = inl e /\
    (ServeHTTP Decode (post "not json") []).1 = resp /\
    http.StatusCode resp = 400 /\
    http.Content resp = "Invalid request" +:+ nl /\
    outcome_of resp = None.
Proof.
  exists json.SyntaxError, bad_request_reply. repeat split; reflexivity.
Qed.

(** C4, amended: for every body that does not decode, the reply carries
    HTTP status 400 and the plain-text body [Invalid request] (content type
    [text/plain; charset=utf-8]), which holds no [PaymentOutcome]; nothing
    is printed, and the handler keeps no other state. *)
Theorem undecodable_body_bad_request
    (decode : string -> json.error + PaymentRequest)
    (r : http.Request) (e : json.error) (out : list fmt.printed) :
  decode (http.Body r) = inl e ->
  let '(resp, out') := ServeHTTP decode r out in
  http.StatusCode resp = 400 /\
  http.Header resp !! "Content-Type" = Some ["text/plain; charset=utf-8"] /\
  http.Content resp = "Invalid request" +:+ nl /\
  outcome_of resp = None /\
  out' = out.
Proof.
  intros Hd. rewrite (ServeHTTP_undecoded decode r e out Hd).
  repeat split; reflexivity.
Qed.

(** The body [not json]. *)
Lemma undecodable_body_bad_request_witness :
  let '(resp, out') := ServeHTTP Decode (post "not json") [] in
  http.StatusCode resp = 400 /\
  http.Header resp !! "Content-Type" = Some ["text/plain; charset=utf-8"] /\
  http.Content resp = "Invalid request" +:+ nl /\
  outcome_of resp = None /\
  out' = [].
Proof.
  apply (undecodable_body_bad_request Decode (post "not json") json.SyntaxError []).
  reflexivity.
Defined.

(** C5, as stated, fails: the body [{"order_id":"","amount":10}] decodes,
    with an empty order id, and is answered with HTTP 200 and status
    [success]; no field is named and nothing is rejected. *)
Lemma empty_order_id_is_not_rejected :
  exists (req : PaymentRequest) (resp : http.Response),
    Decode (qq "{'order_id':'','amount':10}") = inr req /\
    OrderID req = EmptyString /\
    (ServeHTTP Decode (post (qq "{'order_id':'','amount':10}")) []).1 = resp /\
    http.StatusCode resp = 200 /\
    outcome_of resp = Some success /\
    has_status "rejected" resp = false.
Proof.
  exists {| OrderID := ""; Amount := 10 |}, ok_reply. repeat split; reflexivity.
Qed.

(** C5, amended: for every body that decodes with an empty order id or an
    amount that is not positive, the reply is the one every decoded body
    gets (HTTP 200, status [success], message [Payment processed]); the
    handler validates no field, and the only state it touches is standard
    output, which gains the one line of this request. *)
Theorem invalid_fields_still_succeed
    (decode : string -> json.error + PaymentRequest)
    (r : http.Request) (req : PaymentRequest) (out : list fmt.printed) :
  decode (http.Body r) = inr req ->
  OrderID req = EmptyString \/ (Amount req <=? 0)%float = true ->
  let '(resp, out') := ServeHTTP decode r out in
  http.StatusCode resp = 200 /\
  outcome_of resp = Some success /\
  has_status "rejected" resp = false /\
  out' = out ++ [processing_line req].
Proof.
  intros Hd _. rewrite (ServeHTTP_decoded decode r req out Hd).
  repeat split; reflexivity.
Qed.

(** An empty order id, and a negative amount. *)
Lemma invalid_fields_still_succeed_witness :
  (let '(resp, out') := ServeHTTP Decode (post (qq "{'order_id':'','amount':10}")) [] in
   http.StatusCode resp = 200 /\
   outcome_of resp = Some success /\
   has_status "rejected" resp = false /\
   out' = [] ++ [processing_line {| OrderID := ""; Amount := 10 |}])
  /\
  (let '(resp, out') := ServeHTTP Decode (post (qq "{'order_id':'ord-3','amount':-5}")) [] in
   http.StatusCode resp = 200 /\
   outcome_of resp = Some success /\
   has_status "rejected" resp = false /\
   out' = [] ++ [processing_line {| OrderID := "ord-3"; Amount := -5 |}]).
Proof.
  split.
  - apply (invalid_fields_still_succeed Decode (post (qq "{'order_id':'','amount':10}"))
             {| OrderID := ""; Amount := 10 |} []); [reflexivity | left; reflexivity].
  - apply (invalid_fields_still_succeed Decode (post (qq "{'order_id':'ord-3','amount':-5}"))
             {| OrderID := "ord-3"; Amount := -5 |} []); [reflexivity | right; reflexivity].
Defined.

(** C7, as stated, fails: the reply with code 200 carries the status
    [success], which is none of [accepted] and [duplicate], and the reply
    with code 400 carries no outcome, so not one of status [rejected]. *)
Lemma reply_statuses_outside_the_table :
  (http.StatusCode (ServeHTTP Decode ord_1 []).1 = 200 /\
   outcome_of (ServeHTTP Decode ord_1 []).1 = Some success /\
   has_status "accepted" (ServeHTTP Decode ord_1 []).1 = false /\
   has_status "duplicate" (ServeHTTP Decode ord_1 []).1 = false)
  /\
  (http.StatusCode (ServeHTTP Decode (post "not json") []).1 = 400 /\
   outcome_of (ServeHTTP Decode (post "not json") []).1 = None /\
   has_status "rejected" (ServeHTTP Decode (post "not json") []).1 = false).
Proof. repeat split; reflexivity. Qed.

(** C7, amended: [Processor] answers with status code 200 exactly when
    the body decodes, and the reply then carries the status [success]; it
    answers with 400 exactly when the body does not decode, and the reply is
    then the plain text [Invalid request]; no other status code is
    produced. *)
Theorem status_codes_of_Processor
    (decode : string -> json.error + PaymentRequest)
    (r : http.Request) (out : list fmt.printed) :
  let resp := (ServeHTTP decode r out).1 in
  (http.StatusCode resp = 200 \/ http.StatusCode resp = 400) /\
  (http.StatusCode resp = 200 <-> exists req, decode (http.Body r) = inr req) /\
  (http.StatusCode resp = 400 <-> exists e, decode (http.Body r) = inl e) /\
  (http.StatusCode resp = 200 -> outcome_of resp = Some success) /\
  (http.StatusCode resp = 400 ->
     outcome_of resp = None /\ http.Content resp = "Invalid request" +:+ nl).
Proof.
  cbv zeta. rewrite ServeHTTP_reply. unfold reply_for.
  destruct (decode (http.Body r)) as [e|req]; cbn.
  - split; [by right|]. split; [split; [discriminate | by intros [req Hreq]]|].
    split; [split; [by exists e | reflexivity]|]. split; [discriminate|].
    split; reflexivity.
  - split; [by left|]. split; [split; [by exists req | reflexivity]|].
    split; [split; [discriminate | by intros [e He]]|]. split; [reflexivity | discriminate].
Qed.

(** C9: whenever the body decodes into a [PaymentRequest], whatever its
    fields hold (an empty JSON object, an empty order id, a zero or
    negative amount included), the reply has the body
    [{"status":"success","message":"Payment processed"}] followed by a line
    feed, the content type [application/json] and the status string
    [success]; the reply is the same at every place of every sequence of
    requests, so no field is validated and no duplicate is detected. *)
Theorem Processor_success_for_every_decoded_body
    (decode : string -> json.error + PaymentRequest)
    (r : http.Request) (req : PaymentRequest) (out : list fmt.printed) :
  decode (http.Body r) = inr req ->
  let resp := (ServeHTTP decode r out).1 in
  http.Content resp = qq "{'status':'success','message':'Payment processed'}" +:+ nl /\
  http.Header resp !! "Content-Type" = Some ["application/json"] /\
  http.StatusCode resp = 200 /\
  Status <$> outcome_of resp = Some "success" /\
  (forall (rs : list http.Request) (i : nat) (o : list fmt.printed),
     rs !! i = Some r -> (serve decode rs o).1 !! i = Some resp).
Proof.
  intros Hd. cbv zeta. rewrite (ServeHTTP_decoded decode r req out Hd). cbn [fst].
  repeat split; try reflexivity.
  intros rs i o Hi. rewrite (serve_reply_at decode rs o i r Hi).
  unfold reply_for. by rewrite Hd.
Qed.

(** The empty object, an empty order id with a zero amount, and a
    negative amount all decode; the first and the last are served. *)
Lemma Processor_success_for_every_decoded_body_witness :
  (Decode "{}" = inr {| OrderID := ""; Amount := 0 |} /\
   Decode (qq "{'order_id':'','amount':0}") = inr {| OrderID := ""; Amount := 0 |} /\
   Decode (qq "{'order_id':'ord-9','amount':-12.5}") = inr {| OrderID := "ord-9"; Amount := -12.5 |})
  /\
  (let resp := (ServeHTTP Decode (post "{}") []).1 in
   http.Content resp = qq "{'status':'success','message':'Payment processed'}" +:+ nl /\
   http.Header resp !! "Content-Type" = Some ["application/json"] /\
   http.StatusCode resp = 200 /\
   Status <$> outcome_of resp = Some "success" /\
   (forall (rs : list http.Request) (i : nat) (o : list fmt.printed),
      rs !! i = Some (post "{}") -> (serve Decode rs o).1 !! i = Some resp))
  /\
  (let resp := (ServeHTTP Decode (post (qq "{'order_id':'ord-9','amount':-12.5}")) []).1 in
   http.Content resp = qq "{'status':'success','message':'Payment processed'}" +:+ nl /\
   http.Header resp !! "Content-Type" = Some ["application/json"] /\
   http.StatusCode resp = 200 /\
   Status <$> outcome_of resp = Some "success" /\
   (forall (rs : list http.Request) (i : nat) (o : list fmt.printed),
      rs !! i = Some (post (qq "{'order_id':'ord-9','amount':-12.5}")) ->
      (serve Decode rs o).1 !! i = Some resp)).
Proof.
  split; [repeat split; reflexivity|]. split.
  - apply (Processor_success_for_every_decoded_body Decode (post "{}")
             {| OrderID := ""; Amount := 0 |} []). reflexivity.
  - apply (Processor_success_for_every_decoded_body Decode
             (post (qq "{'order_id':'ord-9','amount':-12.5}"))
             {| OrderID := "ord-9"; Amount := -12.5 |} []). reflexivity.
Defined.

(** *** Concurrent calls *)

Lemma count_status_replicate (st : string) (n : nat) (resp : http.Response) :
  count_status st (replicate n resp) = if has_status st resp then n else 0%nat.
Proof.
  unfold count_status. induction n as [|n IH]; cbn.
  - by destruct (has_status st resp).
  - destruct (has_status st resp); cbn; [by rewrite IH | exact IH].
Qed.

Lemma replies_all_ok (decode : string -> json.error + PaymentRequest)
    (rs : list http.Request) :
  Forall (fun r => exists req, decode (http.Body r) = inr req) rs ->
  reply_for decode <$> rs = replicate (length rs) ok_reply.
Proof.
  induction 1 as [|r rs [req Hd] _ IH]; [reflexivity|].
  cbn. rewrite IH. unfold reply_for. by rewrite Hd.
Qed.

(** C3, as stated, fails: two concurrent calls for order [ord-1] can run to
    their ends, and then neither caller has received [accepted] and neither
    [duplicate]; both have received [success]. *)
Lemma two_concurrent_calls_none_accepted :
  exists s : server,
    rtc step (start Decode [ord_1; ord_1] []) s /\ finished s /\
    count_status "accepted" (responses s) = 0%nat /\
    count_status "duplicate" (responses s) = 0%nat /\
    count_status "success" (responses s) = 2%nat.
Proof.
  destruct (can_finish (start Decode [ord_1; ord_1] [])) as (s & Hs & Hfin).
  exists s. rewrite (concurrent_replies Decode _ _ s Hs Hfin).
  repeat split; try assumption; reflexivity.
Qed.

(** C3, amended: when N calls with valid payloads for the same order id run
    concurrently, they can always all run to their ends, and however their
    steps interleave every one of the N callers receives HTTP 200 with
    status [success]: none receives [accepted] and none [duplicate]. The
    handlers share no ledger. *)
Theorem concurrent_calls_all_succeed
    (decode : string -> json.error + PaymentRequest)
    (order_id : string) (rs : list http.Request) (o : list fmt.printed) :
  Forall (fun r => exists req,
            decode (http.Body r) = inr req /\ valid req /\ OrderID req = order_id) rs ->
  (forall s, rtc step (start decode rs o) s ->
             exists s', rtc step s s' /\ finished s') /\
  (forall s, rtc step (start decode rs o) s -> finished s ->
             responses s = replicate (length rs) ok_reply /\
             count_status "success" (responses s) = length rs /\
             count_status "accepted" (responses s) = 0%nat /\
             count_status "duplicate" (responses s) = 0%nat).
Proof.
  intros Hrs. split; [intros s _; apply can_finish|].
  intros s Hs Hfin. rewrite (concurrent_replies decode rs o s Hs Hfin).
  rewrite replies_all_ok.
  - rewrite !count_status_replicate. repeat split; reflexivity.
  - eapply Forall_impl; [exact Hrs|]. intros r (req & Hd & _). by exists req.
Qed.

(** Three concurrent calls for order [ord-1]. *)
Lemma concurrent_calls_all_succeed_witness :
  (forall s, rtc step (start Decode [ord_1; ord_1_again; ord_1] []) s ->
             exists s', rtc step s s' /\ finished s') /\
  (forall s, rtc step (start Decode [ord_1; ord_1_again; ord_1] []) s -> finished s ->
             responses s = replicate (length [ord_1; ord_1_again; ord_1]) ok_reply /\
             count_status "success" (responses s) = length [ord_1; ord_1_again; ord_1] /\
             count_status "accepted" (responses s) = 0%nat /\
             count_status "duplicate" (responses s) = 0%nat).
Proof.
  apply (concurrent_calls_all_succeed Decode "ord-1" [ord_1; ord_1_again; ord_1] []).
  repeat constructor.
  - exists {| OrderID := "ord-1"; Amount := 42.5 |}.
    repeat split; try reflexivity; discriminate.
  - exists {| OrderID := "ord-1"; Amount := 99 |}.
    repeat split; try reflexivity; discriminate.
  - exists {| OrderID := "ord-1"; Amount := 42.5 |}.
    repeat split; try reflexivity; discriminate.
Defined.

End payments_facts.

(** ** The order model *)

Module models_facts.

Import models.

(** C10: for every order and every tax rate, [calculateTotalWithTax]
    returns [total * (1 + taxRate)] as Java computes it on [double]s, that
    is the binary64 product of [total] and the binary64 sum of one and the
    tax rate, each rounded as IEEE 754 prescribes, and leaves every field of
    the order ([id], [items], [total], [createdDate], and what the
    superclass holds) as it was. *)
Theorem calculateTotalWithTax_frame
    (BaseEntity : Type) (this : Order BaseEntity) (taxRate : float) :
  let '(result, this') := calculateTotalWithTax this taxRate in
  result = (total this * (1 + taxRate))%float /\
  Prim2SF result = SF64mul (Prim2SF (total this)) (SF64add (Prim2SF 1%float) (Prim2SF taxRate)) /\
  id this' = id this /\
  items this' = items this /\
  total this' = total this /\
  createdDate this' = createdDate this /\
  super this' = super this.
Proof.
  cbn [calculateTotalWithTax]. split; [reflexivity|]. split.
  - by rewrite mul_spec, add_spec.
  - repeat split; reflexivity.
Qed.

(** A quarter of tax on a total of 100 gives 125. With a tenth of tax the
    result is not 110 but the next [double] above it: the sum [1 + 0.1] is
    rounded before the product is taken. *)
Example calculateTotalWithTax_examples :
  let order :=
    new unit tt {| year := 2024; month := 5; dayOfMonth := 17 |} "o-1" ["pen"; "ink"] 100%float in
  (calculateTotalWithTax order 0.25%float).1 = 125%float /\
  (calculateTotalWithTax order (1 / 10)%float).1 = next_up 110%float.
Proof. split; reflexivity. Qed.

End models_facts.

(** ** The ledger of the design document *)

Module ledger_facts.

Import payments ledger.

(** C6: [tryAccept order_id now] returns [true] exactly when [order_id] is
    not yet recorded; it then records it with the timestamp [now] and
    touches no other entry; when [order_id] is recorded it returns [false]
    and leaves the ledger as it is. *)
Theorem tryAccept_spec (order_id : string) (now : Z) (l : gmap string Z) :
  let '(fresh, l') := tryAccept order_id now l in
  (fresh = true <-> l !! order_id = None) /\
  (l !! order_id = None ->
     l' !! order_id = Some now /\ forall k, k <> order_id -> l' !! k = l !! k) /\
  (is_Some (l !! order_id) -> fresh = false /\ l' = l).
Proof.
  unfold tryAccept. destruct (l !! order_id) as [t|] eqn:Hl.
  - split; [split; discriminate|]. split; [discriminate|]. by intros _.
  - split; [done|]. split; [|by intros [t Ht]].
    intros _. split; [apply lookup_insert_eq|].
    intros k Hk. by apply lookup_insert_ne.
Qed.

Section DesignFacts.

Variable decode : string -> json.error + PaymentRequest.

Lemma tryAccept_effect (order_id : string) (now : Z) (l : gmap string Z) :
  match tryAccept order_id now l with
  | (true, l') => l !! order_id = None /\ l' = <[order_id := now]> l
  | (false, l') => l' = l
  end.
Proof. unfold tryAccept. by destruct (l !! order_id) eqn:Hl. Qed.

(** An operation either leaves the ledger as it is, or reports one order
    id as newly accepted, which was absent and is now recorded. *)
Lemma apply_effect (o : op) (l : gmap string Z) :
  match apply decode o l with
  | (Some k, l') => l !! k = None /\ exists t, l' = <[k := t]> l
  | (None, l') => l' = l
  end.
Proof.
  destruct o as [order_id now|raw now]; cbn.
  - pose proof (tryAccept_effect order_id now l) as He.
    destruct (tryAccept order_id now l) as [[] l']; [|exact He].
    destruct He as [Hnone ->]. eauto.
  - unfold handle. destruct (validate decode raw) as [e|req]; [reflexivity|].
    pose proof (tryAccept_effect (OrderID req) now l) as He.
    destruct (tryAccept (OrderID req) now l) as [[] l']; cbn; [|exact He].
    destruct He as [Hnone ->]. eauto.
Qed.

Lemma exec_effect (ops : list op) (l : gmap string Z) :
  let '(created, l') := exec decode ops l in
  l ⊆ l' /\ NoDup created /\
  forall k, k ∈ created <-> l !! k = None /\ is_Some (l' !! k).
Proof.
  revert l. induction ops as [|o ops IH]; intros l; cbn.
  - split; [done|]. split; [constructor|]. intros k. split.
    + by intros ?%elem_of_nil.
    + intros [Hn [t Ht]]. congruence.
  - pose proof (apply_effect o l) as Ho.
    destruct (apply decode o l) as [c l1]. specialize (IH l1).
    destruct (exec decode ops l1) as [rest l2]. destruct IH as (Hsub & Hnd & Hin).
    destruct c as [k0|].
    + destruct Ho as [Hk0 [t ->]].
      assert (Hl : l ⊆ <[k0 := t]> l) by by apply insert_subseteq.
      assert (Hk0' : l2 !! k0 = Some t).
      { eapply lookup_weaken; [|exact Hsub]. apply lookup_insert_eq. }
      split; [by etrans|]. split.
      * constructor; [|exact Hnd]. intros [Hn _]%Hin.
        by rewrite lookup_insert_eq in Hn.
      * intros k. rewrite elem_of_cons, Hin. split.
        -- intros [->|[Hn Hs]]; [by eauto|]. split; [|exact Hs].
           destruct (l !! k) as [v|] eqn:Hlk; [|done].
           eapply lookup_weaken in Hlk; [|exact Hl]. congruence.
        -- intros [Hn Hs]. destruct (decide (k = k0)) as [->|Hne]; [by left|].
           right. split; [|exact Hs]. by rewrite lookup_insert_ne.
    + subst l1. done.
Qed.

Lemma exec_app (ops1 ops2 : list op) (l : gmap string Z) :
  exec decode (ops1 ++ ops2) l
  = let '(created1, l1) := exec decode ops1 l in
    let '(created2, l2) := exec decode ops2 l1 in
    (created1 ++ created2, l2).
Proof.
  revert l. induction ops1 as [|o ops1 IH]; intros l; cbn.
  - by destruct (exec decode ops2 l).
  - destruct (apply decode o l) as [c l0]. rewrite IH.
    destruct (exec decode ops1 l0) as [created1 l1].
    destruct (exec decode ops2 l1) as [created2 l2]. by destruct c.
Qed.

End DesignFacts.

(** C8: across every sequence of [handle] and [tryAccept] operations, from
    every ledger, the ledger only grows: an entry present at any point of
    the sequence is present at every later point with the timestamp it
    had, and each order id is reported as newly accepted at most once,
    namely when it was absent before the sequence and is recorded after
    it. *)
Theorem ledger_only_grows
    (decode : string -> json.error + PaymentRequest)
    (ops1 ops2 : list op) (l : gmap string Z) :
  let l1 := (exec decode ops1 l).2 in
  let '(created, l2) := exec decode (ops1 ++ ops2) l in
  (forall k t, l1 !! k = Some t -> l2 !! k = Some t) /\
  NoDup created /\
  (forall k, k ∈ created <-> l !! k = None /\ is_Some (l2 !! k)).
Proof.
  cbv zeta. pose proof (exec_effect decode (ops1 ++ ops2) l) as He.
  pose proof (exec_app decode ops1 ops2 l) as Happ.
  pose proof (exec_effect decode ops2 (exec decode ops1 l).2) as H2.
  destruct (exec decode (ops1 ++ ops2) l) as [created l2].
  destruct (exec decode ops1 l) as [created1 l1]. cbn in *.
  destruct (exec decode ops2 l1) as [created2 l2'].
  injection Happ as -> ->. destruct He as (_ & Hnd & Hin). destruct H2 as (Hsub & _).
  split; [|by split]. intros k t Hk. by eapply lookup_weaken.
Qed.

(** The scenarios of the design document, run on its own model: the
    first call for [ord-1] is accepted and the second is a duplicate; an
    empty order id and a body that is no JSON are rejected. *)
Example handle_scenarios :
  let body := qq "{'order_id':'ord-1','amount':42.50}" in
  let '(first, l1) := handle Decode body 1000 ∅ in
  let '(second, l2) := handle Decode body 2000 l1 in
  first = {| outcome := accepted; message := "Payment processed" |} /\
  second = {| outcome := duplicate; message := "Order already processed" |} /\
  l1 = {[ "ord-1" := 1000 ]} /\ l2 = l1 /\
  handle Decode (qq "{'order_id':'','amount':10}") 3000 l2
  = ({| outcome := rejected; message := "InvalidField: order_id" |}, l2) /\
  handle Decode "not json" 4000 l2
  = ({| outcome := rejected; message := "MalformedPayload" |}, l2).
Proof. vm_compute. repeat split; reflexivity. Qed.

End ledger_facts.

(** ** Schedules of concurrent handlers *)

Module schedules_facts.

Import payments payments_facts schedules.

Lemma fire_step (i : nat) (s : server) : fire i s = s \/ step s (fire i s).
Proof.
  unfold fire. destruct (handlers s !! i) as [[[[]|e k] w]|] eqn:Hi; auto.
  right. by apply step_handler.
Qed.

(** Every schedule is a run of the server. *)
Lemma fires_steps (schedule : list nat) (s : server) : rtc step s (fires schedule s).
Proof.
  revert s. induction schedule as [|i schedule IH]; intros s; [apply rtc_refl|].
  cbn. destruct (fire_step i s) as [->|Hs]; [apply IH|].
  eapply rtc_l; [exact Hs | apply IH].
Qed.

Lemma handlers_split (hs : list handler) (i : nat) (h : handler) :
  hs !! i = Some h -> hs = take i hs ++ h :: drop (S i) hs.
Proof. intros Hi. by rewrite take_drop_middle. Qed.

Lemma handlers_insert (hs : list handler) (i : nat) (h h' : handler) :
  hs !! i = Some h -> <[i := h']> hs = take i hs ++ h' :: drop (S i) hs.
Proof.
  intros Hi. apply insert_take_drop. by eapply lookup_lt_Some.
Qed.

(** A step is one call less to make. *)
Lemma step_remaining (s s' : server) : step s s' -> S (remaining s') = remaining s.
Proof.
  intros [s0 i e k w Hi]. unfold remaining. cbn.
  rewrite (handlers_insert _ _ _ _ Hi).
  rewrite (handlers_split _ _ _ Hi) at 3.
  rewrite !sum_list_with_app. cbn. lia.
Qed.

Lemma nsteps_remaining (n : nat) (s s' : server) :
  nsteps step n s s' -> (n + remaining s')%nat = remaining s.
Proof.
  induction 1 as [|n s1 s2 s3 H12 _ IH]; [reflexivity|].
  apply step_remaining in H12. lia.
Qed.

Lemma finished_remaining (s : server) : finished s <-> remaining s = 0%nat.
Proof.
  unfold finished, remaining. induction (handlers s) as [|[m w] hs IH]; cbn.
  - split; [reflexivity | constructor].
  - split.
    + intros [Hh Hhs]%Forall_cons. unfold returned in Hh. cbn in Hh. subst m.
      cbn. by apply IH.
    + intros Hsum. constructor.
      * unfold returned. cbn. destruct m as [[]|e k]; [reflexivity | cbn in Hsum; lia].
      * apply IH. lia.
Qed.

(** A step either leaves standard output alone or appends the next line
    of one handler to it. *)
Lemma step_stdout (s s' : server) :
  step s s' ->
  exists lines, out s' = out s ++ lines /\ lines ++ pending s' ≡ₚ pending s.
Proof.
  intros [s0 i e k w Hi]. unfold pending. cbn.
  rewrite (handlers_insert _ _ _ _ Hi).
  pose proof (handlers_split _ _ _ Hi) as Hsplit.
  set (before := take i (handlers s0)) in *.
  set (after := drop (S i) (handlers s0)) in *.
  rewrite Hsplit. rewrite !fmap_app, !fmap_cons, !concat_app. cbn.
  destruct e as [c|p]; cbn.
  - exists []. split; [by rewrite app_nil_r | reflexivity].
  - exists [p]. split; [reflexivity|]. cbn. apply Permutation_middle.
Qed.

Lemma steps_stdout (s s' : server) :
  rtc step s s' ->
  exists lines, out s' = out s ++ lines /\ lines ++ pending s' ≡ₚ pending s.
Proof.
  induction 1 as [s|s1 s2 s3 H12 _ IH].
  - exists []. split; [by rewrite app_nil_r | reflexivity].
  - destruct (step_stdout _ _ H12) as (l1 & Ho1 & Hp1).
    destruct IH as (l2 & Ho2 & Hp2). exists (l1 ++ l2). split.
    + by rewrite Ho2, Ho1, app_assoc.
    + rewrite <- Hp1, <- Hp2. by rewrite app_assoc.
Qed.


Section Processor.

Variable decode : string -> json.error + PaymentRequest.

Lemma calls_Processor (r : http.Request) : calls (Processor decode r) = cost decode r.
Proof. unfold Processor, cost. by destruct (decode (http.Body r)). Qed.


Lemma remaining_start (rs : list http.Request) (o : list fmt.printed) :
  remaining (start decode rs o) = sum_list_with (cost decode) rs.
Proof.
  unfold remaining, start. cbn. induction rs as [|r rs IH]; [reflexivity|].
  cbn. by rewrite IH, calls_Processor.
Qed.


End Processor.

Lemma fires_nsteps (schedule : list nat) (s : server) :
  nsteps step (fired schedule s) s (fires schedule s).
Proof.
  revert s. induction schedule as [|i schedule IH]; intros s; [constructor|].
  cbn. specialize (IH (fire i s)). unfold active, fire in *.
  destruct (handlers s !! i) as [[[[]|e k] w]|] eqn:Hi; cbn in *; try exact IH.
  eapply nsteps_l; [|exact IH]. by apply step_handler.
Qed.

Lemma interleaved_finished : finished (fires interleaved (start Decode two_requests [])).
Proof. unfold finished. cbn. repeat constructor. Qed.

(** However the steps of concurrent handlers interleave, every caller
    receives the reply it would receive if the requests were served one
    after the other. *)
Theorem concurrent_replies_as_sequential
    (decode : string -> json.error + PaymentRequest)
    (rs : list http.Request) (o : list fmt.printed) (s : server) :
  rtc step (start decode rs o) s -> finished s ->
  responses s = (serve decode rs o).1.
Proof.
  intros Hs Hfin. rewrite (concurrent_replies decode rs o s Hs Hfin).
  by rewrite serve_replies.
Qed.

Lemma concurrent_replies_as_sequential_witness :
  responses (fires interleaved (start Decode two_requests []))
  = (serve Decode two_requests []).1.
Proof.
  apply (concurrent_replies_as_sequential Decode two_requests []
           (fires interleaved (start Decode two_requests []))).
  - apply fires_steps.
  - apply interleaved_finished.
Defined.



(** Every run of concurrent handlers ends, and all complete runs have the
    same length: a run of [n] steps has made [n] of the calls the requests
    cost (three for a body that decodes, five for one that does not), so
    [n] is at most five times the number of requests, and the handlers
    have all returned exactly when [n] reaches the total cost. *)
Theorem every_run_has_the_same_length
    (decode : string -> json.error + PaymentRequest)
    (rs : list http.Request) (o : list fmt.printed) (n : nat) (s : server) :
  nsteps step n (start decode rs o) s ->
  (n <= sum_list_with (cost decode) rs)%nat /\
  (sum_list_with (cost decode) rs <= 5 * length rs)%nat /\
  (finished s <-> n = sum_list_with (cost decode) rs).
Proof.
  intros Hn. apply nsteps_remaining in Hn. rewrite remaining_start in Hn.
  split; [lia|]. split.
  - clear. induction rs as [|r rs IH]; cbn; [lia|].
    unfold cost at 1. destruct (decode (http.Body r)); lia.
  - rewrite finished_remaining. lia.
Qed.

Lemma every_run_has_the_same_length_witness :
  (8 <= sum_list_with (cost Decode) two_requests)%nat /\
  (sum_list_with (cost Decode) two_requests <= 5 * length two_requests)%nat /\
  (finished (fires interleaved (start Decode two_requests []))
   <-> 8%nat = sum_list_with (cost Decode) two_requests).
Proof.
  apply (every_run_has_the_same_length Decode two_requests [] 8
           (fires interleaved (start Decode two_requests []))).
  apply (fires_nsteps interleaved (start Decode two_requests [])).
Defined.

(** *** Deliveries to [NotifyHandler] *)

Lemma result_of_notify (r : http.Request) : result_of (notify r) = acknowledgement.
Proof. reflexivity. Qed.

(** However many deliveries of a notification arrive (a retry is one
    more) and however their handling interleaves, every one of them is
    acknowledged with status 200 and the line [Notification received], and
    standard output is left as it was: the handler keeps no trace of the
    deliveries it has seen. *)
Theorem every_delivery_is_acknowledged
    (rs : list http.Request) (o : list fmt.printed) (s : server) :
  rtc step (notify_start rs o) s -> finished s ->
  responses s = replicate (length rs) acknowledgement /\ out s = o.
Proof.
  intros Hs Hfin. split.
  - rewrite (finished_result_of s Hfin), (steps_result_of _ _ Hs).
    unfold notify_start. cbn. clear. induction rs as [|r rs IH]; [reflexivity|].
    cbn. by rewrite IH.
  - destruct (steps_stdout _ _ Hs) as (lines & Hout & Hperm).
    assert (Hnone : pending (notify_start rs o) = []).
    { unfold pending, notify_start. cbn. clear.
      induction rs as [|r rs IH]; [reflexivity | exact IH]. }
    rewrite Hnone in Hperm. apply Permutation_nil_r in Hperm.
    apply app_eq_nil in Hperm as [-> _]. cbn in Hout.
    by rewrite app_nil_r in Hout.
Qed.

Lemma every_delivery_is_acknowledged_witness :
  responses (fires [1; 0; 2]%nat (notify_start [post "ping"; post "ping"; post "ping"] []))
  = replicate (length [post "ping"; post "ping"; post "ping"]) acknowledgement
  /\ out (fires [1; 0; 2]%nat (notify_start [post "ping"; post "ping"; post "ping"] [])) = [].
Proof.
  apply (every_delivery_is_acknowledged [post "ping"; post "ping"; post "ping"] []
           (fires [1; 0; 2]%nat (notify_start [post "ping"; post "ping"; post "ping"] []))).
  - apply fires_steps.
  - unfold finished. cbn. repeat constructor.
Defined.

End schedules_facts.

(** ** Bodies at the edges of the decoder

    These facts are about [Processor] with the decoder of the concrete
    runs, [Decode]. *)

Module decoding_facts.

Import payments payments_facts.

Lemma scan_blank (s : string) :
  blank s = true -> json.scan (json.Running [] json.BeginValue) s = inl json.EOF.
Proof.
  induction s as [|c s IH]; cbn; [reflexivity|].
  intros [Hc Hs]%andb_true_iff. rewrite Hc. by apply IH.
Qed.

(** An empty body, and one of white space only, is answered with 400 and
    [Invalid request], like any body that does not decode; nothing is
    printed. *)
Theorem blank_body_is_a_bad_request (r : http.Request) (out : list fmt.printed) :
  blank (http.Body r) = true ->
  ServeHTTP Decode r out = (bad_request_reply, out).
Proof.
  intros Hb. apply (ServeHTTP_undecoded Decode r json.EOF out).
  unfold Decode, json.readValue. by rewrite (scan_blank _ Hb).
Qed.

Lemma blank_body_is_a_bad_request_witness :
  ServeHTTP Decode (post EmptyString) [] = (bad_request_reply, [])
  /\ ServeHTTP Decode (post (" " +:+ nl)) [] = (bad_request_reply, []).
Proof.
  split.
  - apply (blank_body_is_a_bad_request (post EmptyString) []). reflexivity.
  - apply (blank_body_is_a_bad_request (post (" " +:+ nl)) []). reflexivity.
Defined.

(** Once the scanner has read a whole value that is no number, the bytes
    that follow play no part. *)
Lemma scan_app (s t : string) (st : json.state) (v : json.value) :
  json.scan st s = inr v ->
  (forall lit, v <> json.Number lit) ->
  json.scan st (s +:+ t) = inr v.
Proof.
  revert st. induction s as [|c s IH]; intros st Hs Hv.
  - destruct st as [stack l|v'|e]; cbn in Hs.
    + unfold json.eof in Hs.
      destruct stack; [|discriminate].
      destruct l as [| | | | | | | | |[] raw|]; try discriminate;
        injection Hs as <-; by destruct (Hv (srev raw)).
    + injection Hs as ->. by destruct t.
    + discriminate.
  - destruct st as [stack l|v'|e]; cbn in *; [by apply IH | exact Hs | exact Hs].
Qed.

Lemma Decode_app (body rest : string) (req : PaymentRequest) :
  Decode body = inr req -> Decode (body +:+ rest) = inr req.
Proof.
  unfold Decode, json.readValue. intros Hd.
  destruct (json.scan (json.Running [] json.BeginValue) body) as [e|v] eqn:Hs;
    [discriminate|].
  rewrite (scan_app body rest _ v Hs); [exact Hd|].
  intros lit ->. discriminate.
Qed.

(** Whatever follows a body that decodes is never looked at: the request
    with the longer body gets the same reply and prints the same line. *)
Theorem bytes_after_a_decoded_body_are_ignored
    (r : http.Request) (rest : string) (req : PaymentRequest) (out : list fmt.printed) :
  Decode (http.Body r) = inr req ->
  ServeHTTP Decode {| http.Method := http.Method r; http.Body := http.Body r +:+ rest |} out
  = ServeHTTP Decode r out.
Proof.
  intros Hd. rewrite (ServeHTTP_decoded Decode r req out Hd).
  apply ServeHTTP_decoded. cbn. by apply Decode_app.
Qed.

Lemma bytes_after_a_decoded_body_are_ignored_witness :
  ServeHTTP Decode
    {| http.Method := http.Method ord_1; http.Body := http.Body ord_1 +:+ " }{ not json" |} []
  = ServeHTTP Decode ord_1 [].
Proof.
  apply (bytes_after_a_decoded_body_are_ignored ord_1 " }{ not json"
           {| OrderID := "ord-1"; Amount := 42.5 |} []).
  reflexivity.
Defined.





End decoding_facts.

(** ** The arithmetic of [calculateTotalWithTax]

    Facts about binary64 products, proved on the IEEE 754 specification of
    the operations, and what they say of the method. *)

Module models_numeric_facts.

Import models.

Lemma shr_fexp_canonical (m : positive) (e : Z) :
  fexp prec emax (Z.pos (digits2_pos m) + e) = e ->
  shr_fexp prec emax (Z.pos m) e loc_Exact
  = ({| shr_m := Z.pos m; shr_r := false; shr_s := false |}, e).
Proof.
  intros Hc. unfold shr_fexp. cbn [Zdigits2 shr_record_of_loc].
  rewrite Hc, Z.sub_diag. reflexivity.
Qed.

(** A canonical mantissa times [2 ^ 52], with the exponent lowered by 52,
    shifts back to itself with nothing lost. *)
Lemma shr_fexp_scaled (m : positive) (e : Z) :
  fexp prec emax (Z.pos (digits2_pos m) + e) = e ->
  shr_fexp prec emax (Z.pos (Pos.iter xO m 52)) (e + -52) loc_Exact
  = ({| shr_m := Z.pos m; shr_r := false; shr_s := false |}, e).
Proof.
  intros Hc. unfold shr_fexp. cbn [Zdigits2 shr_record_of_loc].
  assert (Hd : Z.pos (digits2_pos (Pos.iter xO m 52)) + (e + -52)
               = Z.pos (digits2_pos m) + e).
  { cbn [Pos.iter digits2_pos]. rewrite !Pos2Z.inj_succ. lia. }
  rewrite Hd, Hc. replace (e - (e + -52)) with 52 by lia.
  unfold shr. replace (e + -52 + 52) with e by lia. reflexivity.
Qed.

Lemma SF64mul_one (x : spec_float) :
  valid_binary x = true ->
  SF64mul x (S754_finite false 4503599627370496 (-52)) = x.
Proof.
  destruct x as [s|s| |s m e]; intros Hv.
  - cbn. by destruct s.
  - cbn. by destruct s.
  - reflexivity.
  - unfold SF64mul, SFmul. rewrite xorb_false_r.
    cbn in Hv. unfold bounded, canonical_mantissa in Hv.
    apply andb_true_iff in Hv as [Hc He]. apply Z.eqb_eq in Hc.
    rewrite Pos.mul_comm.
    change (4503599627370496 * m)%positive with (Pos.iter xO m 52%positive).
    unfold binary_round_aux. rewrite (shr_fexp_scaled m e Hc).
    cbn [shr_m loc_of_shr_record round_nearest_even].
    rewrite (shr_fexp_canonical m e Hc). cbn [shr_m]. by rewrite He.
Qed.

Lemma mul_one (x : float) : (x * 1)%float = x.
Proof.
  apply Prim2SF_inj. rewrite mul_spec. apply SF64mul_one, Prim2SF_valid.
Qed.

Lemma binary_round_aux_opp (s : bool) (m e : Z) (l : location) :
  binary_round_aux prec emax (negb s) m e l
  = SFopp (binary_round_aux prec emax s m e l).
Proof.
  unfold binary_round_aux. destruct (shr_fexp prec emax m e l) as [mrs' e'].
  destruct (shr_fexp prec emax _ e' loc_Exact) as [mrs'' e''].
  destruct (shr_m mrs''); try reflexivity. by destruct (e'' <=? emax - prec).
Qed.

Lemma SF64mul_opp (x y : spec_float) : SF64mul (SFopp x) y = SFopp (SF64mul x y).
Proof.
  destruct x as [sx|sx| |sx mx ex], y as [sy|sy| |sy my ey]; cbn; try reflexivity;
    try (by destruct sx, sy).
  rewrite <- binary_round_aux_opp. by destruct sx, sy.
Qed.

Lemma mul_opp (x y : float) : (- x * y)%float = (- (x * y))%float.
Proof.
  apply Prim2SF_inj. rewrite mul_spec, !opp_spec, mul_spec. apply SF64mul_opp.
Qed.

Lemma mul_nan_l (x : float) : (nan * x)%float = nan.
Proof.
  apply Prim2SF_inj. rewrite mul_spec. change (Prim2SF nan) with S754_nan.
  by destruct (Prim2SF x).
Qed.

Lemma mul_nan_r (x : float) : (x * nan)%float = nan.
Proof.
  apply Prim2SF_inj. rewrite mul_spec. change (Prim2SF nan) with S754_nan.
  by destruct (Prim2SF x).
Qed.

Lemma add_nan_r (x : float) : (x + nan)%float = nan.
Proof.
  apply Prim2SF_inj. rewrite add_spec. change (Prim2SF nan) with S754_nan.
  by destruct (Prim2SF x).
Qed.

(** With a tax rate of zero (of either sign) the method returns the total
    itself, bit for bit, whatever [double] the total is: finite, zero of
    either sign, infinite or NaN. *)
Theorem zero_tax_returns_the_total (BaseEntity : Type) (this : Order BaseEntity) :
  (calculateTotalWithTax this 0%float).1 = total this /\
  (calculateTotalWithTax this (-0)%float).1 = total this.
Proof.
  split; cbn [calculateTotalWithTax fst].
  - change (1 + 0)%float with 1%float. apply mul_one.
  - change (1 + -0)%float with 1%float. apply mul_one.
Qed.

(** The method never fails on a value that is no number: a NaN total or a
    NaN tax rate gives a NaN result, whatever the other operand is. *)
Theorem NaN_propagates (BaseEntity : Type) (base : BaseEntity) (today : LocalDate)
    (id : string) (items : list string) (total taxRate : float) :
  (calculateTotalWithTax (new BaseEntity base today id items nan) taxRate).1 = nan /\
  (calculateTotalWithTax (new BaseEntity base today id items total) nan).1 = nan.
Proof.
  split; cbn [calculateTotalWithTax new models.total fst].
  - apply mul_nan_l.
  - rewrite add_nan_r. apply mul_nan_r.
Qed.

(** An order with the opposite total (a credit for the same amount) gets
    exactly the opposite result at the same tax rate: rounding does not
    depend on the sign. *)
Theorem opposite_total_opposite_result (BaseEntity : Type) (base : BaseEntity)
    (today : LocalDate) (id : string) (items : list string) (total taxRate : float) :
  (calculateTotalWithTax (new BaseEntity base today id items (- total)) taxRate).1
  = (- (calculateTotalWithTax (new BaseEntity base today id items total) taxRate).1)%float.
Proof. cbn [calculateTotalWithTax new models.total fst]. apply mul_opp. Qed.

End models_numeric_facts.

(** ** The deployment script *)

Module scripts_facts.

Import scripts.

(** The script always announces the deployment and then runs the copy
    command, once; it prints [Frontend deployed.] exactly when the copy
    exited with status 0, and it is then, and only then, that it returns
    instead of throwing. A failed copy is never reported as deployed and
    never retried. *)
Theorem deploy_reports_success_only_after_the_copy (sh : string -> child) :
  let '(events, result) := main sh in
  (exists rest, events = console_log "Deploying application..." :: exec scp :: rest
                /\ Forall (fun e => forall command, e <> exec command) rest) /\
  (console_log "Frontend deployed." ∈ events <-> sh scp = Exited 0) /\
  (result = Returns tt <-> sh scp = Exited 0).
Proof.
  unfold main, deploy, mbind, Script_bind, log, execSync. cbn.
  destruct (sh scp) as [[|status|status]|signal|error] eqn:Hsh; cbn.
  all: split; [eexists; split; [reflexivity|]; repeat constructor; discriminate|].
  all: split; split; try discriminate; try reflexivity.
  all: try (intros _; set_solver).
  all: intros Hin; repeat (apply elem_of_cons in Hin as [Hin|Hin]; [discriminate|]).
  all: by apply elem_of_nil in Hin.
Qed.

End scripts_facts.
